(** * nyancoin: recipe cost resolution and delivery efficiency

    A shallow embedding of the calculation core of [script.js]
    (section 2 of the file, "핵심 로직"): the three recursive resolvers
    [getMaterialCost], [getTotalCostIncludingStamina] and [getStamina],
    the step table [getReqCount], the converter [calculateStaminaCost]
    and the optimiser [calcEfficiency]; and, around it, the bookkeeping
    of the calculator page ([updateTotalSummary], [doCalc],
    [recalculateAllSlots]), the clipboard text of the slots
    ([updateClipboardTextarea] and the import handler) and two editor
    operations ([deleteItem] and the add-material handler).

    Modelling conventions.
    - The global [appData] is passed explicitly as a record.  The two
      JS objects used as dictionaries ([materials], [recipes]) are
      finite maps; a recipe's [ingredients] object is the list of its
      entries in [Object.entries] order.  A missing [ingredients]
      object and an empty one behave alike (no loop iteration), so both
      are the empty list; a missing [stamina] or [stamina_cost] is [0]
      as in [x || 0].
    - JS numbers are exact rationals ([Qc]); [Math.round] is
      round-half-up, [toFixed] is round-half-away-from-zero on the
      exact value.  The concrete evaluations below use inputs on which
      exact and binary64 arithmetic give the same results.  Where the
      code rounds an exact halfway value (a count times the reduction
      factor, a printed quotient, a ratio equal to the threshold) the
      binary64 result may fall on either side; the statements of the
      stamina sum, of the best-mode report and of the level used by
      [calcEfficiency] therefore name a nearest value
      ([nearestInteger], [printedNear]) and a non-strict threshold,
      not the model's own choice at the tie.
    - A lookup [obj[name]] is a lookup in the finite map of the own
      entries.  This is what the code does for every name except the
      members of [Object.prototype] ([Object_prototype]), which a plain
      object inherits; the statements that depend on a lookup missing
      say so ([name ∉ Object_prototype], [plainData]).
    - A resolver returns either a number or an error object; the sum
      type [Result] is that union.
    - The recursion of the resolvers is bounded by the number of
      recipes (every descent adds a recipe name to [visited]); the
      embedding recurses on that bound and [None] stands for "bound too
      small", which the adequacy lemmas show never happens. *)

From Stdlib Require Import ZArith QArith Qcanon Qround Lia Lqa Ascii.
From stdpp Require Import gmap strings list fin_maps numbers pretty.

Open Scope Qc_scope.

(** ** Numbers *)

Definition ofZ (z : Z) : Qc := Q2Qc (inject_Z z).

Definition floorQc (x : Qc) : Z := Qfloor x.

Definition half : Qc := Q2Qc (1 # 2).

(** [Math.round]: nearest integer, halves towards +infinity. *)
Definition Math_round (x : Qc) : Qc := ofZ (floorQc (x + half)).

(** The string produced by [x.toFixed(digits)], kept structured: a sign
    flag and the integer [units] with [units / 10^digits] the magnitude
    printed.  [render] spells the characters. *)
Record Fixed := mkFixed { fx_neg : bool; fx_units : Z; fx_digits : nat }.

Definition pow10 (digits : nat) : Z := 10 ^ Z.of_nat digits.

Definition toFixed (digits : nat) (x : Qc) : Fixed :=
  let neg := bool_decide (x < 0) in
  let ax := if neg then - x else x in
  {| fx_neg := neg;
     fx_units := floorQc (ax * ofZ (pow10 digits) + half);
     fx_digits := digits |}.

Definition Fixed_value (f : Fixed) : Qc :=
  let v := ofZ (fx_units f) / ofZ (pow10 (fx_digits f)) in
  if fx_neg f then - v else v.

Fixpoint zeros (n : nat) : string :=
  match n with O => "" | S k => "0" +:+ zeros k end.

Definition render (f : Fixed) : string :=
  let p := pow10 (fx_digits f) in
  let whole := pretty (fx_units f / p)%Z in
  let frac := pretty (fx_units f mod p)%Z in
  let sign := if fx_neg f then "-" else "" in
  match fx_digits f with
  | O => sign +:+ whole
  | S _ => sign +:+ whole +:+ "." +:+
           zeros (fx_digits f - String.length frac) +:+ frac
  end.

(** ** Data model *)

Record Recipe := mkRecipe {
  stamina : Qc;
  category : string;
  ingredients : list (string * Qc)
}.

Record Settings := mkSettings {
  stamina_cost : Qc;
  efficiency_limit : Qc;
  conservation_level : option Qc;
  ignoreIntermediateStamina : bool
}.

Record AppData := mkAppData {
  materials : gmap string Qc;
  recipes : gmap string Recipe;
  settings : Settings
}.

(** Error objects [{ error: kind, ... }] returned as values. *)
Inductive Error :=
| material_price_missing (materialName : string)
| item_not_found (itemName : string)
| circular_dependency (itemName : string)
| generic_cost_error.

Inductive Result :=
| Num (n : Qc)
| Err (e : Error).

Inductive ErrorKind :=
  KPriceMissing | KNotFound | KCircular | KGeneric.

Definition error_kind (e : Error) : ErrorKind :=
  match e with
  | material_price_missing _ => KPriceMissing
  | item_not_found _ => KNotFound
  | circular_dependency _ => KCircular
  | generic_cost_error => KGeneric
  end.

(** The property names every plain object inherits from
    [Object.prototype]: [obj[name]] finds the inherited member when
    [obj] has no own entry under one of these names. *)
Definition Object_prototype : list string :=
  ["constructor"; "__proto__"; "hasOwnProperty"; "isPrototypeOf";
   "propertyIsEnumerable"; "toLocaleString"; "toString"; "valueOf";
   "__defineGetter__"; "__defineSetter__"; "__lookupGetter__";
   "__lookupSetter__"].

(** No recipe lists an ingredient under an inherited name. *)
Definition plainData (appData : AppData) : Prop :=
  map_Forall (λ _ r, Forall (λ i, i ∉ Object_prototype) (ingredients r).*1)
    (recipes appData).

(** ** Resolvers *)

Section Resolver.
Variable appData : AppData.

Definition findRecipe (itemName : string) : option Recipe :=
  recipes appData !! itemName.

(** The two categories conservation does not apply to. *)
Definition exempt (recipe : Recipe) : bool :=
  bool_decide (category recipe = "가공품")
  || bool_decide (category recipe = "방직").

Definition reductionFactor (recipe : Recipe) (conservationLevel : Qc) : Qc :=
  if exempt recipe then 1
  else 1 - conservationLevel * Q2Qc (5 # 100).

(** [Math.round(count * reductionFactor)], on the exact product; where
    the product is exactly halfway between two integers the code's
    binary64 product may round to either. *)
Definition reducedCount (count factor : Qc) : Qc :=
  Math_round (count * factor).

(** The [for ... of Object.entries(recipe.ingredients)] loop of the two
    cost resolvers: the first error met is returned at once. *)
Fixpoint costLoop (resolve : string → option Result) (factor : Qc)
    (entries : list (string * Qc)) (cost : Qc) : option Result :=
  match entries with
  | [] => Some (Num cost)
  | (ingName, count) :: rest =>
      match resolve ingName with
      | None => None
      | Some (Err e) => Some (Err e)
      | Some (Num ingCost) =>
          costLoop resolve factor rest
            (cost + ingCost * reducedCount count factor)
      end
  end.

(** The same loop in [getStamina], which has no error case. *)
Fixpoint staminaLoop (resolve : string → option Qc) (factor : Qc)
    (entries : list (string * Qc)) (totalStamina : Qc) : option Qc :=
  match entries with
  | [] => Some totalStamina
  | (ingName, count) :: rest =>
      match resolve ingName with
      | None => None
      | Some s =>
          staminaLoop resolve factor rest
            (totalStamina + s * reducedCount count factor)
      end
  end.

Fixpoint getStamina_fuel (fuel : nat) (itemName : string)
    (visited : gset string) (conservationLevel : Qc) : option Qc :=
  match fuel with
  | O => None
  | S fuel' =>
      if bool_decide (itemName ∈ visited) then Some 0
      else match findRecipe itemName with
      | None => Some 0
      | Some recipe =>
          let visited' := visited ∪ {[itemName]} in
          let currentItemStamina := stamina recipe in
          match staminaLoop
                  (fun ingName =>
                     getStamina_fuel fuel' ingName visited' conservationLevel)
                  (reductionFactor recipe conservationLevel)
                  (ingredients recipe) currentItemStamina with
          | None => None
          | Some totalStamina =>
              if ignoreIntermediateStamina (settings appData) && exempt recipe
              then Some (totalStamina - currentItemStamina)
              else Some totalStamina
          end
      end
  end.

(** One more than the number of recipes bounds the recursion depth. *)
Definition depthBound : nat := S (size (recipes appData)).

Definition getStamina (itemName : string) (visited : gset string)
    (conservationLevel : Qc) : option Qc :=
  getStamina_fuel depthBound itemName visited conservationLevel.

Definition materialPrice (itemName : string) (price : Qc) : Result :=
  if bool_decide (price ≤ 0)
  then Err (material_price_missing itemName)
  else Num price.

Fixpoint getMaterialCost_fuel (fuel : nat) (itemName : string)
    (visited : gset string) (conservationLevel : Qc) : option Result :=
  match fuel with
  | O => None
  | S fuel' =>
      match materials appData !! itemName with
      | Some price => Some (materialPrice itemName price)
      | None =>
          match findRecipe itemName with
          | None => Some (Err (item_not_found itemName))
          | Some recipe =>
              if bool_decide (itemName ∈ visited)
              then Some (Err (circular_dependency itemName))
              else
                let visited' := visited ∪ {[itemName]} in
                costLoop
                  (fun ingName =>
                     getMaterialCost_fuel fuel' ingName visited'
                       conservationLevel)
                  (reductionFactor recipe conservationLevel)
                  (ingredients recipe) 0
          end
      end
  end.

Definition getMaterialCost (itemName : string) (visited : gset string)
    (conservationLevel : Qc) : option Result :=
  getMaterialCost_fuel depthBound itemName visited conservationLevel.

(** After the loop, the item's stamina from a fresh [getStamina] call
    (with [new Set()]) is priced and added. *)
Definition addStaminaCost (itemName : string) (conservationLevel : Qc)
    (looped : option Result) : option Result :=
  match looped with
  | None => None
  | Some (Err e) => Some (Err e)
  | Some (Num cost) =>
      match getStamina itemName ∅ conservationLevel with
      | None => None
      | Some effectiveStaminaForThisItem =>
          Some (Num (cost + effectiveStaminaForThisItem
                            * stamina_cost (settings appData)))
      end
  end.

Fixpoint getTotalCostIncludingStamina_fuel (fuel : nat) (itemName : string)
    (visited : gset string) (conservationLevel : Qc) : option Result :=
  match fuel with
  | O => None
  | S fuel' =>
      match materials appData !! itemName with
      | Some price => Some (materialPrice itemName price)
      | None =>
          match findRecipe itemName with
          | None => Some (Err (item_not_found itemName))
          | Some recipe =>
              if bool_decide (itemName ∈ visited)
              then Some (Err (circular_dependency itemName))
              else
                let visited' := visited ∪ {[itemName]} in
                addStaminaCost itemName conservationLevel
                  (costLoop
                     (fun ingName =>
                        getTotalCostIncludingStamina_fuel fuel' ingName
                          visited' conservationLevel)
                     (reductionFactor recipe conservationLevel)
                     (ingredients recipe) 0)
          end
      end
  end.

Definition getTotalCostIncludingStamina (itemName : string)
    (visited : gset string) (conservationLevel : Qc) : option Result :=
  getTotalCostIncludingStamina_fuel depthBound itemName visited
    conservationLevel.

End Resolver.

(** ** Requirement schedule and stamina value *)

Definition getReqCount (deliveryNumber : Z) : Z :=
  if bool_decide (deliveryNumber ≤ 1)%Z then 1
  else if bool_decide (deliveryNumber = 2)%Z then 2
  else if bool_decide (3 ≤ deliveryNumber)%Z && bool_decide (deliveryNumber ≤ 10)%Z
       then 3
  else if bool_decide (11 ≤ deliveryNumber)%Z && bool_decide (deliveryNumber ≤ 20)%Z
       then 5
  else 10.

(** [calculateStaminaCost] returns the number [99999] or the string of
    [toFixed(2)]. *)
Inductive StaminaValue :=
| Sentinel (n : Qc)
| Formatted (s : Fixed).

Definition calculateStaminaCost (wlbLevel : Qc) : StaminaValue :=
  if bool_decide (wlbLevel ≤ 1) then Sentinel (ofZ 99999)
  else
    let totalBaseMaterialCost := ofZ 1000 in
    let totalCraftActions := ofZ 13 in
    let netStaminaGainPerCraft := wlbLevel - 1 in
    let totalNetStaminaGain := totalCraftActions * netStaminaGainPerCraft in
    if bool_decide (totalNetStaminaGain ≤ 0) then Sentinel (ofZ 99999)
    else Formatted (toFixed 2 (totalBaseMaterialCost / totalNetStaminaGain)).

(** ** Efficiency optimiser *)

Record EfficiencyResult := mkResult {
  mode : string;
  recommend : bool;
  round : option Z;
  msg : option string;
  totalItems : Z;
  totalProfit : Qc;
  averageEfficiency : Fixed;
  unitCost : Fixed;
  consumedCoin : Fixed;
  totalCost : Fixed;
  totalStamina : Fixed
}.

(** What [calcEfficiency] returns: an error object, the full result
    object, the two-field object [{ recommend: false, msg }] of the
    guard at the end of the simulation branch, or, for a mode label
    outside [deliveryMap], an object whose [totalProfit] is [NaN] (its
    [round] is undefined and its printed fields are zeros). *)
Inductive Outcome :=
| Failed (e : Error)
| Report (r : EfficiencyResult)
| Bare (text : string)
| NotANumber (label : string).

(** Line 256: the level the three resolvers are called with. *)
Definition conservationLevelOf (s : Settings) : Qc :=
  match conservation_level s with
  | Some level => level
  | None => ofZ 10
  end.

(** The ternary [total > 0 ? profit / total : 0], with the exact
    quotient. *)
Definition ratio (profit total : Qc) : Qc :=
  if bool_decide (0 < total) then profit / total else 0.

(** The [while (keepChecking && maxDeliveries < 50)] loop; [iters] is
    [50 - maxDeliveries], the number of iterations the guard still
    allows. *)
Fixpoint searchLoop (unitCost reward limit : Qc) (iters : nat)
    (maxDeliveries totalItemsForAvg : Z) : Z :=
  match iters with
  | O => maxDeliveries
  | S iters' =>
      let currentDeliveryNum := (maxDeliveries + 1)%Z in
      let totalItemsForAvg := (totalItemsForAvg + getReqCount currentDeliveryNum)%Z in
      let totalCostForAvg := unitCost * ofZ totalItemsForAvg in
      let totalProfitForAvg := reward * ofZ currentDeliveryNum in
      let averageEfficiency := ratio totalProfitForAvg totalCostForAvg in
      if bool_decide (limit ≤ averageEfficiency)
      then searchLoop unitCost reward limit iters' currentDeliveryNum
             totalItemsForAvg
      else maxDeliveries
  end.

(** [for (let i = 1; i <= n; i++) total += getReqCount(i)]. *)
Definition sumReqCount (n : Z) : Z :=
  foldl (fun total i => (total + getReqCount i)%Z) 0%Z (seqZ 1 n).

Definition milestones : list Z := [25; 20; 10; 2; 1]%Z.

Definition deliveryMap : gmap string Z :=
  list_to_map [("1", 1); ("2", 2); ("3", 10); ("5", 20); ("10", 25)]%Z.

Definition report (label : string) (rec : bool) (rnd : option Z)
    (text : option string) (items : Z) (profit : Qc)
    (eff unitCost consumedCoin unitStamina : Qc) : EfficiencyResult :=
  {| mode := label; recommend := rec; round := rnd; msg := text;
     totalItems := items; totalProfit := profit;
     averageEfficiency := toFixed 3 eff;
     unitCost := toFixed 1 unitCost;
     consumedCoin := toFixed 1 (consumedCoin * ofZ items);
     totalCost := toFixed 0 (unitCost * ofZ items);
     totalStamina := toFixed 0 (unitStamina * ofZ items) |}.

(** The body of [calcEfficiency] after the three resolver calls. *)
Definition decide_deliveries (s : Settings) (reward : Qc) (deliveryMode : string)
    (consumedCoin unitCost unitStamina : Qc) : Outcome :=
  if bool_decide (unitCost = 0) then Failed generic_cost_error
  else if bool_decide (deliveryMode = "default") then
    let maxDeliveries :=
      searchLoop unitCost reward (efficiency_limit s) 50 0 0 in
    if bool_decide (maxDeliveries = 0)%Z then
      let req := getReqCount 1 in
      Report (report deliveryMode false None (Some "납품 비추천 (효율 낮음)")
                req (reward * ofZ req) (reward / (unitCost * ofZ req))
                unitCost consumedCoin unitStamina)
    else
      match List.find (fun m => bool_decide (m ≤ maxDeliveries)%Z) milestones with
      | None => NotANumber "default"
      | Some bestMilestone =>
          let finalTotalItems := sumReqCount bestMilestone in
          let totalProfit := reward * ofZ bestMilestone in
          let totalCost := unitCost * ofZ finalTotalItems in
          Report (report "default" true (Some bestMilestone) None
                    finalTotalItems totalProfit (ratio totalProfit totalCost)
                    unitCost consumedCoin unitStamina)
      end
  else
    match deliveryMap !! deliveryMode with
    | None => NotANumber deliveryMode
    | Some maxDeliveries =>
        let currentTotal := sumReqCount maxDeliveries in
        if bool_decide (maxDeliveries = 0)%Z then Bare "계산 오류"
        else
          let totalProfit := reward * ofZ maxDeliveries in
          let totalCost := unitCost * ofZ currentTotal in
          Report (report deliveryMode true (Some maxDeliveries) None
                    currentTotal totalProfit (ratio totalProfit totalCost)
                    unitCost consumedCoin unitStamina)
    end.

(** Lines 257-379: the function's body once [conservationLevel] is bound. *)
Definition calcEfficiency_body (conservationLevel : Qc) (appData : AppData)
    (itemName : string) (reward : Qc) (deliveryMode : string) : option Outcome :=
  match getMaterialCost appData itemName ∅ conservationLevel with
  | None => None
  | Some (Err e) => Some (Failed e)
  | Some (Num consumedCoin) =>
      match getTotalCostIncludingStamina appData itemName ∅ conservationLevel with
      | None => None
      | Some (Err e) => Some (Failed e)
      | Some (Num unitCost) =>
          match getStamina appData itemName ∅ conservationLevel with
          | None => None
          | Some unitStamina =>
              Some (decide_deliveries (settings appData) reward deliveryMode
                      consumedCoin unitCost unitStamina)
          end
      end
  end.

Definition calcEfficiency (appData : AppData) (itemName : string) (reward : Qc)
    (deliveryMode : string) : option Outcome :=
  calcEfficiency_body (conservationLevelOf (settings appData)) appData
    itemName reward deliveryMode.

(** ** Calculator slots and the summary *)

(** The four values [updateTotalSummary] writes to the page: the three
    totals as numbers (the page shows their [toLocaleString]) and
    [finalRatio], the [toFixed(3)] string, or [None] for the number 0
    written when the total value is not positive. *)
Module Summary.
Record t := mk {
  totalCoin : Qc;
  totalStamina : Qc;
  totalNyan : Qc;
  finalRatio : option Fixed
}.
End Summary.










(** ** Clipboard text of the slots

    Strings of this part are lists of UTF-16 code units, kept abstract:
    [Char] with its equality, the two units the handlers look for
    (space and comma) and [isWhite], the units [String.prototype.trim]
    strips.  [sanitizeText] and [sanitizeNumber] stand for what the
    browser does to a value assigned to a text input and to a number
    input.  The slots of the page are the list of their (name, reward)
    values, slot [i] at index [i - 1]; a slot that does not exist is
    beyond the end of the list. *)

Section Clipboard.
Context {Char : Type} `{EqDecision Char}.
Variables (space comma : Char) (isWhite : Char → bool).
Variables (sanitizeText sanitizeNumber : list Char → list Char).

Fixpoint trimStart (s : list Char) : list Char :=
  match s with
  | [] => []
  | c :: rest => if isWhite c then trimStart rest else s
  end.

Definition trimEnd (s : list Char) : list Char :=
  reverse (trimStart (reverse s)).

Definition trim (s : list Char) : list Char := trimEnd (trimStart s).

(** [s.split(',')]. *)
Fixpoint split (s : list Char) : list (list Char) :=
  match s with
  | [] => [[]]
  | c :: rest =>
      if decide (c = comma) then [] :: split rest
      else match split rest with
           | part :: parts => (c :: part) :: parts
           | [] => [[c]]
           end
  end.

(** [s.lastIndexOf(' ')], [None] for -1. *)
Fixpoint lastIndexOf (s : list Char) : option nat :=
  match s with
  | [] => None
  | c :: rest =>
      match lastIndexOf rest with
      | Some j => Some (S j)
      | None => if decide (c = space) then Some 0%nat else None
      end
  end.

(** [parts.join(sep)]. *)
Fixpoint join (sep : list Char) (parts : list (list Char)) : list Char :=
  match parts with
  | [] => []
  | [part] => part
  | part :: rest => part ++ sep ++ join sep rest
  end.

(** The entry [updateClipboardTextarea] pushes for one slot, if any. *)
Definition slotEntry (slot : list Char * list Char) : option (list Char) :=
  let name := trim slot.1 in
  let reward := trim slot.2 in
  if bool_decide (name ≠ []) && bool_decide (reward ≠ [])
  then Some (name ++ space :: reward)
  else None.

(** [updateClipboardTextarea]: the text written to the textarea, from
    the (name, reward) values of the slots on the page. *)
Definition updateClipboardTextarea (slots : list (list Char * list Char))
    : list Char :=
  join [comma; space] (omap slotEntry (take 8 slots)).

(** One step of the import loop: [part] is written to slot [index]. *)
Definition importPart (slots : list (list Char * list Char))
    (indexed : nat * list Char) : list (list Char * list Char) :=
  let '(index, part) := indexed in
  if bool_decide (index < 8)%nat then
    match lastIndexOf part with
    | Some lastSpaceIndex =>
        if bool_decide (0 < lastSpaceIndex)%nat then
          <[index := (sanitizeText (trim (take lastSpaceIndex part)),
                      sanitizeNumber (trim (drop (S lastSpaceIndex) part)))]>
            slots
        else slots
    | None => slots
    end
  else slots.

(** The click handler of the import button, on the slot values: an
    empty text changes nothing; otherwise the first eight slots are
    cleared and the parts written in order. *)
Definition importClipboard (text : list Char)
    (slots : list (list Char * list Char)) : list (list Char * list Char) :=
  let importString := trim text in
  if bool_decide (importString = []) then slots
  else
    let cleared := ((λ _, ([], [])) <$> take 8 slots) ++ drop 8 slots in
    let parts := trim <$> split importString in
    foldl importPart cleared (imap pair parts).

(** A string that starts with a unit [trim] keeps. *)
Definition headOk (s : list Char) : Prop :=
  match s with
  | c :: _ => isWhite c = false
  | [] => False
  end.

(** Nothing to trim at either end, and not empty. *)
Definition tight (s : list Char) : Prop := headOk s ∧ headOk (reverse s).

(** The trimmed (name, reward) of a slot that has both. *)
Definition slotValues (slot : list Char * list Char)
    : option (list Char * list Char) :=
  let name := trim slot.1 in
  let reward := trim slot.2 in
  if bool_decide (name ≠ []) && bool_decide (reward ≠ [])
  then Some (name, reward)
  else None.

(** The slots the textarea lists, in order, with the values listed. *)
Definition filledSlots (slots : list (list Char * list Char))
    : list (list Char * list Char) :=
  omap slotValues (take 8 slots).

(** The text of one listed slot. *)
Definition entryText (e : list Char * list Char) : list Char :=
  e.1 ++ space :: e.2.

(** What makes a listed slot readable back: no comma in it, no space in
    the reward, and values the inputs keep as they are. *)
Definition portable (e : list Char * list Char) : Prop :=
  (comma ∉ fst e) ∧ (comma ∉ snd e) ∧ (space ∉ snd e) ∧
  sanitizeText (fst e) = fst e ∧ sanitizeNumber (snd e) = snd e.

End Clipboard.

(** ** Editor operations *)

(** The two lists of the editor, the [type] argument of [deleteItem]. *)
Inductive ItemType := Materials | Recipes.

(** [deleteItem(type, key)], on the dataset. *)
Definition deleteItem (type : ItemType) (key : string) (appData : AppData)
    : AppData :=
  match type with
  | Recipes =>
      {| materials := materials appData;
         recipes := delete key (recipes appData);
         settings := settings appData |}
  | Materials =>
      {| materials := delete key (materials appData);
         recipes := recipes appData;
         settings := settings appData |}
  end.

(** The click handler of the add-material button: [price] is the
    price field parsed by [parseFloat], [None] when the field is empty
    (a field holding text that is not a number is not modelled);
    nothing happens unless both fields are filled.  The assignment
    [materials[name] = price] stores an own entry, except under the
    name [__proto__], where it reaches the inherited setter, which
    ignores a number. *)
Definition addMaterial (name : string) (price : option Qc) (appData : AppData)
    : AppData :=
  match price with
  | Some p =>
      if bool_decide (name = "") then appData
      else if bool_decide (name = "__proto__") then appData
      else {| materials := <[name := p]> (materials appData);
              recipes := recipes appData;
              settings := settings appData |}
  | None => appData
  end.

(** ** Notions used in the statements *)

(** Recipes not yet on the path: what a descent can still add. *)
Definition remaining (appData : AppData) (visited : gset string) : nat :=
  size (dom (recipes appData) ∖ visited).

(** The recipe graph.

    [edge x y]: resolving [x] descends into [y], i.e. [x] is looked up
    as a recipe (it is not a material name) and [y] is one of its
    ingredient names. *)

Definition edge (appData : AppData) (x y : string) : Prop :=
  materials appData !! x = None ∧
  ∃ r, recipes appData !! x = Some r ∧ y ∈ (ingredients r).*1.

(** A name the dataset knows, as a material or as a recipe. *)
Definition known (appData : AppData) (n : string) : Prop :=
  is_Some (materials appData !! n) ∨ is_Some (recipes appData !! n).

(** Every material has a price [> 0]. *)
Definition priced (appData : AppData) : Prop :=
  map_Forall (λ _ price, 0 < price) (materials appData).

(** Every ingredient name of every recipe is known. *)
Definition closed (appData : AppData) : Prop :=
  map_Forall (λ _ r, Forall (known appData) (ingredients r).*1)
    (recipes appData).

(** The common shape of the two cost resolvers.

    [getMaterialCost] and [getTotalCostIncludingStamina] are the same
    walk; they differ in what is done with the loop's result
    ([finish]): nothing, or [addStaminaCost]. *)
Fixpoint costWalk (appData : AppData)
    (finish : string → Qc → option Result → option Result)
    (fuel : nat) (itemName : string) (visited : gset string)
    (cl : Qc) : option Result :=
  match fuel with
  | O => None
  | S fuel' =>
      match materials appData !! itemName with
      | Some price => Some (materialPrice itemName price)
      | None =>
          match findRecipe appData itemName with
          | None => Some (Err (item_not_found itemName))
          | Some recipe =>
              if bool_decide (itemName ∈ visited)
              then Some (Err (circular_dependency itemName))
              else
                finish itemName cl
                  (costLoop
                     (fun ingName =>
                        costWalk appData finish fuel' ingName
                          (visited ∪ {[itemName]}) cl)
                     (reductionFactor recipe cl) (ingredients recipe) 0)
          end
      end
  end.

Definition walk (appData : AppData)
    (finish : string → Qc → option Result → option Result)
    (itemName : string) (visited : gset string) (cl : Qc) : option Result :=
  costWalk appData finish (depthBound appData) itemName visited cl.

(** Delivery [i] clears the threshold: the loop's test at index [i]. *)
Definition passes (unitCost reward limit : Qc) (i : Z) : Prop :=
  limit ≤ ratio (reward * ofZ i) (unitCost * ofZ (sumReqCount i)).

(** The two loops as C5 reads them: every ingredient counted with its
    raw count, no reduction and no rounding. *)
Fixpoint rawCostLoop (resolve : string → option Result)
    (entries : list (string * Qc)) (cost : Qc) : option Result :=
  match entries with
  | [] => Some (Num cost)
  | (ingName, count) :: rest =>
      match resolve ingName with
      | None => None
      | Some (Err e) => Some (Err e)
      | Some (Num ingCost) => rawCostLoop resolve rest (cost + ingCost * count)
      end
  end.

Fixpoint rawStaminaLoop (resolve : string → option Qc)
    (entries : list (string * Qc)) (totalStamina : Qc) : option Qc :=
  match entries with
  | [] => Some totalStamina
  | (ingName, count) :: rest =>
      match resolve ingName with
      | None => None
      | Some s => rawStaminaLoop resolve rest (totalStamina + s * count)
      end
  end.

Definition integral (count : Qc) : Prop := ∃ z : Z, count = ofZ z.


(** [f] is a string of [digits] decimals whose value is nearest to [x]
    among such strings (either neighbour at a tie). *)
Definition printedNear (digits : nat) (f : Fixed) (x : Qc) : Prop :=
  fx_digits f = digits ∧
  Fixed_value f * ofZ (pow10 digits) - half ≤ x * ofZ (pow10 digits) ∧
  x * ofZ (pow10 digits) ≤ Fixed_value f * ofZ (pow10 digits) + half.

(** Two results of the same kind: both numbers, or the same error. *)
Definition sameOutcome (r1 r2 : option Result) : Prop :=
  match r1, r2 with
  | Some (Num _), Some (Num _) => True
  | Some (Err e1), Some (Err e2) => e1 = e2
  | None, None => True
  | _, _ => False
  end.

(** What both ways of finishing the walk do: errors pass through,
    numbers stay numbers. *)
Definition Finisher (finish : string → Qc → option Result → option Result) : Prop :=
  (∀ n cl, finish n cl None = None) ∧
  (∀ n cl e, finish n cl (Some (Err e)) = Some (Err e)) ∧
  (∀ n cl c, ∃ c', finish n cl (Some (Num c)) = Some (Num c')).

(** A dataset without negative quantities: stamina, ingredient counts
    and the value of stamina are all [>= 0]. *)
Definition sane (appData : AppData) : Prop :=
  0 ≤ stamina_cost (settings appData) ∧
  map_Forall (λ _ r, 0 ≤ stamina r ∧ Forall (λ c, 0 ≤ c) (ingredients r).*2)
    (recipes appData).

(** The conservation levels the settings allow: 0 to 20. *)
Definition levelInRange (cl : Qc) : Prop := 0 ≤ cl ∧ cl ≤ ofZ 20.

(** A way of finishing that keeps the order between two levels. *)
Definition FinMono (fin : string → Qc → option Result → option Result)
    (l1 l2 : Qc) : Prop :=
  ∀ n c1 c2 c1' c2', 0 ≤ c2 → c2 ≤ c1 →
    fin n l1 (Some (Num c1)) = Some (Num c1') →
    fin n l2 (Some (Num c2)) = Some (Num c2') →
    0 ≤ c2' ∧ c2' ≤ c1'.

(** The mode labels the selector of a slot offers. *)
Definition modeLabels : list string := ["default"; "1"; "2"; "3"; "5"; "10"].

(** [uses x y]: [y] is an ingredient name of the recipe stored under
    [x] (whether or not [x] is also a material name). *)
Definition uses (appData : AppData) (x y : string) : Prop :=
  ∃ r, recipes appData !! x = Some r ∧ y ∈ (ingredients r).*1.

(** Two datasets hold the same entries for [n] and everything it uses,
    directly or through other recipes. *)
Definition agreeFrom (d1 d2 : AppData) (n : string) : Prop :=
  ∀ x, rtc (uses d1) n x →
       materials d1 !! x = materials d2 !! x ∧
       recipes d1 !! x = recipes d2 !! x.


(** ** Sample datasets *)

Definition plainSettings : Settings :=
  {| stamina_cost := 1; efficiency_limit := Q2Qc (36 # 100);
     conservation_level := Some 0; ignoreIntermediateStamina := false |}.

(** A -> B -> M: a product made of an intermediate made of a material. *)
Definition chainData : AppData :=
  {| materials := {[ "M" := ofZ 10 ]};
     recipes := {[ "B" := mkRecipe 1 "x" [("M", 1)];
                   "A" := mkRecipe 1 "x" [("B", 1)] ]};
     settings := plainSettings |}.

(** A and B use each other; A first uses the material M. *)
Definition loopRecipes : gmap string Recipe :=
  {[ "A" := mkRecipe 1 "x" [("M", 1); ("B", 1)];
     "B" := mkRecipe 1 "x" [("A", 1)] ]}.

Definition loopData : AppData :=
  {| materials := {[ "M" := ofZ 10 ]};
     recipes := loopRecipes; settings := plainSettings |}.

(** The same cycle, with the price of M left unset. *)
Definition unsetData : AppData :=
  {| materials := {[ "M" := 0 ]};
     recipes := loopRecipes; settings := plainSettings |}.

(** D uses L and R, which both use S. *)
Definition diamondData : AppData :=
  {| materials := {[ "M" := ofZ 10 ]};
     recipes := {[ "D" := mkRecipe 1 "x" [("L", 1); ("R", 1)];
                   "L" := mkRecipe 1 "x" [("S", 1)];
                   "R" := mkRecipe 1 "x" [("S", 1)];
                   "S" := mkRecipe 1 "x" [("M", 1)] ]};
     settings := plainSettings |}.

(** H needs one and a half units of M. *)
Definition halfData : AppData :=
  {| materials := {[ "M" := ofZ 4 ]};
     recipes := {[ "H" := mkRecipe 0 "x" [("M", Q2Qc (3 # 2))] ]};
     settings := plainSettings |}.

(** P is one unit of M, which costs 1.25. *)
Definition quarterData : AppData :=
  {| materials := {[ "M" := Q2Qc (5 # 4) ]};
     recipes := {[ "P" := mkRecipe 0 "x" [("M", 1)] ]};
     settings := plainSettings |}.

(** T needs two units of M; the settings carry no conservation level. *)
Definition noLevelData : AppData :=
  {| materials := {[ "M" := ofZ 10 ]};
     recipes := {[ "T" := mkRecipe 0 "x" [("M", ofZ 2)] ]};
     settings :=
       {| stamina_cost := 1; efficiency_limit := Q2Qc (36 # 100);
          conservation_level := None; ignoreIntermediateStamina := false |} |}.

(** W is both a material and a recipe name. *)
Definition overlapData : AppData :=
  {| materials := {[ "W" := ofZ 10 ]};
     recipes := {[ "W" := mkRecipe (ofZ 3) "x" [] ]};
     settings := plainSettings |}.

(** K is an intermediate product crafted from nothing; intermediate
    stamina is ignored. *)
Definition leafData : AppData :=
  {| materials := ∅;
     recipes := {[ "K" := mkRecipe (ofZ 2) "가공품" [] ]};
     settings :=
       {| stamina_cost := 1; efficiency_limit := Q2Qc (36 # 100);
          conservation_level := Some 0; ignoreIntermediateStamina := true |} |}.

(** The units [trim] strips that occur in ASCII text, and a page with
    three slots: the first needs trimming, the second has no name. *)
Definition asciiWhite (c : Ascii.ascii) : bool :=
  bool_decide (c ∈ [" "; "009"; "010"; "011"; "012"; "013"]%char).

Definition units (s : string) : list Ascii.ascii := String.list_ascii_of_string s.

Definition pageSlots : list (list Ascii.ascii * list Ascii.ascii) :=
  [(units " iron bar ", units "120"); (units "", units "7");
   (units "rope", units "35")].

(** * Verification *)

(** ** The two loops *)

Lemma costLoop_ext (res1 res2 : string → option Result) factor entries cost :
  (∀ n, n ∈ entries.*1 → res1 n = res2 n) →
  costLoop res1 factor entries cost = costLoop res2 factor entries cost.
Proof.
  revert cost. induction entries as [|[n c] rest IH]; intros cost Hext; [done|].
  simpl. rewrite <- (Hext n) by (simpl; left).
  destruct (res1 n) as [[v|e]|]; try done.
  apply IH. intros m Hm. apply Hext. simpl. by right.
Qed.

Lemma costLoop_is_Some (res : string → option Result) factor entries cost :
  (∀ n, n ∈ entries.*1 → is_Some (res n)) →
  is_Some (costLoop res factor entries cost).
Proof.
  revert cost. induction entries as [|[n c] rest IH]; intros cost Hall; [by eexists|].
  simpl. destruct (Hall n) as [[v|e] ->]; [simpl; left | | by eexists].
  apply IH. intros m Hm. apply Hall. simpl. by right.
Qed.

Lemma costLoop_Num_inv (res : string → option Result) factor entries cost v :
  costLoop res factor entries cost = Some (Num v) →
  ∀ n, n ∈ entries.*1 → ∃ w, res n = Some (Num w).
Proof.
  revert cost. induction entries as [|[n c] rest IH]; intros cost Hrun m Hm.
  - by apply elem_of_nil in Hm.
  - simpl in *. destruct (res n) as [[w|e]|] eqn:Hn; try done.
    apply elem_of_cons in Hm as [->|Hm]; [by eexists|]. by eapply IH.
Qed.

Lemma costLoop_Err_inv (res : string → option Result) factor entries cost e :
  costLoop res factor entries cost = Some (Err e) →
  ∃ n, n ∈ entries.*1 ∧ res n = Some (Err e).
Proof.
  revert cost. induction entries as [|[n c] rest IH]; intros cost Hrun; [done|].
  simpl in *. destruct (res n) as [[w|e']|] eqn:Hn; try done.
  - destruct (IH _ Hrun) as (m & Hm & Hres). exists m. split; [by right|done].
  - exists n. split; [by left|congruence].
Qed.

Lemma staminaLoop_ext (res1 res2 : string → option Qc) factor entries total :
  (∀ n, n ∈ entries.*1 → res1 n = res2 n) →
  staminaLoop res1 factor entries total = staminaLoop res2 factor entries total.
Proof.
  revert total. induction entries as [|[n c] rest IH]; intros total Hext; [done|].
  simpl. rewrite <- (Hext n) by (simpl; left).
  destruct (res1 n) as [v|]; try done.
  apply IH. intros m Hm. apply Hext. simpl. by right.
Qed.

Lemma staminaLoop_is_Some (res : string → option Qc) factor entries total :
  (∀ n, n ∈ entries.*1 → is_Some (res n)) →
  is_Some (staminaLoop res factor entries total).
Proof.
  revert total. induction entries as [|[n c] rest IH]; intros total Hall; [by eexists|].
  simpl. destruct (Hall n) as [v ->]; [simpl; left|].
  apply IH. intros m Hm. apply Hall. simpl. by right.
Qed.

(** ** The recursion bound is never reached *)

Section Bound.
Variable appData : AppData.

Lemma remaining_bound visited : (remaining appData visited < depthBound appData)%nat.
Proof.
  unfold remaining, depthBound. rewrite <- size_dom.
  apply Nat.lt_succ_r. apply subseteq_size. by apply subseteq_difference_l.
Qed.

Lemma remaining_add visited n :
  is_Some (recipes appData !! n) → n ∉ visited →
  (remaining appData (visited ∪ {[n]}) < remaining appData visited)%nat.
Proof.
  intros Hn Hv. unfold remaining. apply subset_size.
  apply elem_of_dom in Hn. split.
  - apply difference_mono_l, union_subseteq_l.
  - intros Hsub. specialize (Hsub n). rewrite !elem_of_difference in Hsub.
    rewrite elem_of_union, elem_of_singleton in Hsub.
    destruct Hsub as [_ Hnot]; [done|]. apply Hnot. by right.
Qed.

Lemma getStamina_fuel_is_Some fuel n visited cl :
  (remaining appData visited < fuel)%nat →
  is_Some (getStamina_fuel appData fuel n visited cl).
Proof.
  revert n visited. induction fuel as [|fuel IH]; intros n visited Hlt; [lia|].
  simpl. case_bool_decide as Hv; [by eexists|].
  unfold findRecipe. destruct (recipes appData !! n) as [r|] eqn:Hr; [|by eexists].
  edestruct (staminaLoop_is_Some
               (λ i, getStamina_fuel appData fuel i (visited ∪ {[n]}) cl))
    as [t ->].
  - intros i _. apply IH.
    pose proof (remaining_add visited n (mk_is_Some _ _ Hr) Hv). lia.
  - destruct (_ && _); by eexists.
Qed.

Lemma getStamina_fuel_irrel fuel fuel' n visited cl :
  (remaining appData visited < fuel)%nat → (remaining appData visited < fuel')%nat →
  getStamina_fuel appData fuel n visited cl
  = getStamina_fuel appData fuel' n visited cl.
Proof.
  revert fuel' n visited.
  induction fuel as [|fuel IH]; intros [|fuel'] n visited H1 H2; try lia.
  simpl. case_bool_decide as Hv; [done|].
  unfold findRecipe. destruct (recipes appData !! n) as [r|] eqn:Hr; [|done].
  erewrite staminaLoop_ext; [done|].
  intros i _. simpl.
  pose proof (remaining_add visited n (mk_is_Some _ _ Hr) Hv).
  apply IH; lia.
Qed.

Lemma getStamina_is_Some n visited cl :
  is_Some (getStamina appData n visited cl).
Proof. apply getStamina_fuel_is_Some, remaining_bound. Qed.

(** The unfolding equations of [getStamina], free of the bound. *)
Lemma getStamina_visited n visited cl :
  n ∈ visited → getStamina appData n visited cl = Some 0.
Proof. intros Hv. unfold getStamina. simpl. by rewrite bool_decide_true. Qed.

Lemma getStamina_unknown n visited cl :
  recipes appData !! n = None → getStamina appData n visited cl = Some 0.
Proof.
  intros Hr. unfold getStamina, depthBound. simpl.
  unfold findRecipe. rewrite Hr. by case_bool_decide.
Qed.

Lemma getStamina_recipe n visited cl r :
  n ∉ visited → recipes appData !! n = Some r →
  getStamina appData n visited cl =
    match staminaLoop (λ i, getStamina appData i (visited ∪ {[n]}) cl)
            (reductionFactor r cl) (ingredients r) (stamina r) with
    | None => None
    | Some total =>
        if ignoreIntermediateStamina (settings appData) && exempt r
        then Some (total - stamina r) else Some total
    end.
Proof.
  intros Hv Hr. unfold getStamina at 1, depthBound. simpl.
  rewrite bool_decide_false by done. unfold findRecipe. rewrite Hr.
  erewrite staminaLoop_ext; [done|].
  intros i _. simpl. apply getStamina_fuel_irrel.
  - pose proof (remaining_add visited n (mk_is_Some _ _ Hr) Hv).
    pose proof (remaining_bound visited). unfold depthBound in *. lia.
  - apply remaining_bound.
Qed.
End Bound.

(** ** The two cost resolvers as one walk *)

Section Walk.
Variable appData : AppData.
Variable finish : string → Qc → option Result → option Result.

Hypothesis finish_None : ∀ n cl, finish n cl None = None.
Hypothesis finish_Err : ∀ n cl e, finish n cl (Some (Err e)) = Some (Err e).
Hypothesis finish_Num :
  ∀ n cl c, ∃ c', finish n cl (Some (Num c)) = Some (Num c').

Lemma finish_Num_inv n cl looped v :
  finish n cl looped = Some (Num v) → ∃ c, looped = Some (Num c).
Proof.
  destruct looped as [[c|e]|]; [by eexists| |].
  - by rewrite finish_Err.
  - by rewrite finish_None.
Qed.

Lemma finish_Err_inv n cl looped e :
  finish n cl looped = Some (Err e) → looped = Some (Err e).
Proof.
  destruct looped as [[c|e']|].
  - by destruct (finish_Num n cl c) as [c' ->].
  - rewrite finish_Err. congruence.
  - by rewrite finish_None.
Qed.

Lemma finish_is_Some n cl looped :
  is_Some looped → is_Some (finish n cl looped).
Proof.
  intros [[c|e] ->].
  - destruct (finish_Num n cl c) as [c' ->]. by eexists.
  - rewrite finish_Err. by eexists.
Qed.

Lemma costWalk_is_Some fuel n visited cl :
  (remaining appData visited < fuel)%nat →
  is_Some (costWalk appData finish fuel n visited cl).
Proof.
  revert n visited. induction fuel as [|fuel IH]; intros n visited Hlt; [lia|].
  simpl. destruct (materials appData !! n); [by eexists|].
  unfold findRecipe. destruct (recipes appData !! n) as [r|] eqn:Hr; [|by eexists].
  case_bool_decide as Hv; [by eexists|].
  apply finish_is_Some, costLoop_is_Some. intros i _. apply IH.
  pose proof (remaining_add appData visited n (mk_is_Some _ _ Hr) Hv). lia.
Qed.

Lemma costWalk_irrel fuel fuel' n visited cl :
  (remaining appData visited < fuel)%nat →
  (remaining appData visited < fuel')%nat →
  costWalk appData finish fuel n visited cl = costWalk appData finish fuel' n visited cl.
Proof.
  revert fuel' n visited.
  induction fuel as [|fuel IH]; intros [|fuel'] n visited H1 H2; try lia.
  simpl. destruct (materials appData !! n); [done|].
  unfold findRecipe. destruct (recipes appData !! n) as [r|] eqn:Hr; [|done].
  case_bool_decide as Hv; [done|]. f_equal.
  apply costLoop_ext. intros i _.
  pose proof (remaining_add appData visited n (mk_is_Some _ _ Hr) Hv).
  apply IH; lia.
Qed.

Lemma walk_is_Some n visited cl : is_Some (walk appData finish n visited cl).
Proof. apply costWalk_is_Some, remaining_bound. Qed.

(** The unfolding equations of the walk, free of the bound. *)
Lemma walk_material n visited cl price :
  materials appData !! n = Some price →
  walk appData finish n visited cl = Some (materialPrice n price).
Proof. intros Hm. unfold walk, depthBound. simpl. by rewrite Hm. Qed.

Lemma walk_unknown n visited cl :
  materials appData !! n = None → recipes appData !! n = None →
  walk appData finish n visited cl = Some (Err (item_not_found n)).
Proof.
  intros Hm Hr. unfold walk, depthBound. simpl.
  unfold findRecipe. by rewrite Hm, Hr.
Qed.

Lemma walk_revisit n visited cl :
  materials appData !! n = None → is_Some (recipes appData !! n) →
  n ∈ visited →
  walk appData finish n visited cl = Some (Err (circular_dependency n)).
Proof.
  intros Hm [r Hr] Hv. unfold walk, depthBound. simpl.
  unfold findRecipe. rewrite Hm, Hr. by rewrite bool_decide_true.
Qed.

Lemma walk_recipe n visited cl r :
  materials appData !! n = None → recipes appData !! n = Some r →
  n ∉ visited →
  walk appData finish n visited cl =
    finish n cl
      (costLoop (λ i, walk appData finish i (visited ∪ {[n]}) cl)
         (reductionFactor r cl) (ingredients r) 0).
Proof.
  intros Hm Hr Hv. unfold walk at 1, depthBound. simpl.
  unfold findRecipe. rewrite Hm, Hr. rewrite bool_decide_false by done.
  f_equal. apply costLoop_ext. intros i _. apply costWalk_irrel.
  - pose proof (remaining_add appData visited n (mk_is_Some _ _ Hr) Hv).
    pose proof (remaining_bound appData visited).
    unfold depthBound in *. lia.
  - apply remaining_bound.
Qed.
(** *** Cycles are always detected *)

Lemma costWalk_reaches_visited fuel x y visited cl res :
  rtc (edge appData) x y → y ∈ visited →
  materials appData !! y = None → is_Some (recipes appData !! y) →
  costWalk appData finish fuel x visited cl = Some res → ∃ e, res = Err e.
Proof.
  intros Hpath. revert fuel visited res.
  induction Hpath as [x | x z y (Hmx & r & Hrx & Hz) Hzy IH];
    intros [|fuel] visited res Hv Hm [ry Hry] Hrun; try done.
  - simpl in Hrun. unfold findRecipe in Hrun. rewrite Hm, Hry in Hrun.
    rewrite bool_decide_true in Hrun by done. simplify_eq. by eexists.
  - simpl in Hrun. unfold findRecipe in Hrun. rewrite Hmx, Hrx in Hrun.
    case_bool_decide; [simplify_eq; by eexists|].
    destruct res as [v|e]; [|by eexists].
    apply finish_Num_inv in Hrun as [c Hloop].
    destruct (costLoop_Num_inv _ _ _ _ _ Hloop z Hz) as [w Hw].
    destruct (IH fuel (visited ∪ {[x]}) (Num w)) as [e He];
      [by apply elem_of_union_l|done|by eexists|done|done].
Qed.

Lemma walk_cycle_fails x visited cl :
  tc (edge appData) x x → ∃ e, walk appData finish x visited cl = Some (Err e).
Proof.
  intros Hcyc. destruct (walk_is_Some x visited cl) as [res Hres].
  rewrite Hres. destruct res as [v|e]; [exfalso|by eexists].
  assert (∃ z, edge appData x z ∧ rtc (edge appData) z x)
    as (z & (Hmx & r & Hrx & Hz) & Hzx).
  { inversion Hcyc; subst; eauto using rtc_refl, tc_rtc. }
  destruct (decide (x ∈ visited)) as [Hv|Hv].
  - rewrite walk_revisit in Hres by eauto. done.
  - rewrite (walk_recipe _ _ _ r) in Hres by done.
    apply finish_Num_inv in Hres as [c Hloop].
    destruct (costLoop_Num_inv _ _ _ _ _ Hloop z Hz) as [w Hw].
    destruct (costWalk_reaches_visited (depthBound appData) z x
                (visited ∪ {[x]}) cl (Num w))
      as [e He];
      [done|by apply elem_of_union_r, elem_of_singleton|done|by eexists
      |done|done].
Qed.

(** *** A reported cycle is a real one *)

Lemma costWalk_circular_sound fuel x visited cl n :
  (∀ v, v ∈ visited → tc (edge appData) v x) →
  costWalk appData finish fuel x visited cl = Some (Err (circular_dependency n)) →
  tc (edge appData) n n.
Proof.
  revert x visited. induction fuel as [|fuel IH]; intros x visited Hanc Hrun;
    [done|].
  simpl in Hrun. destruct (materials appData !! x) as [price|] eqn:Hm.
  { unfold materialPrice in Hrun. by case_bool_decide. }
  unfold findRecipe in Hrun.
  destruct (recipes appData !! x) as [r|] eqn:Hr; [|done].
  case_bool_decide as Hv; [simplify_eq; by apply Hanc|].
  apply finish_Err_inv, costLoop_Err_inv in Hrun as (z & Hz & Hrun).
  assert (edge appData x z) as Hxz by (split; eauto).
  apply (IH z (visited ∪ {[x]})); [|done].
  intros v [Hv'| ->%elem_of_singleton]%elem_of_union.
  - eapply tc_r; eauto.
  - by apply tc_once.
Qed.

(** *** With every price set and every name known, only cycles fail *)

Lemma costWalk_only_circular fuel x visited cl e :
  priced appData → closed appData → known appData x →
  costWalk appData finish fuel x visited cl = Some (Err e) →
  error_kind e = KCircular.
Proof.
  intros Hpriced Hclosed. revert x visited.
  induction fuel as [|fuel IH]; intros x visited Hx Hrun; [done|].
  simpl in Hrun. destruct (materials appData !! x) as [price|] eqn:Hm.
  { unfold materialPrice in Hrun. case_bool_decide as Hle; [|done].
    specialize (Hpriced x price Hm). simpl in Hpriced.
    by apply Qcle_not_lt in Hle. }
  unfold findRecipe in Hrun.
  destruct (recipes appData !! x) as [r|] eqn:Hr.
  - case_bool_decide; [by simplify_eq|].
    apply finish_Err_inv, costLoop_Err_inv in Hrun as (z & Hz & Hrun).
    apply (IH z (visited ∪ {[x]})); [|done].
    specialize (Hclosed x r Hr). simpl in Hclosed.
    by eapply Forall_forall in Hclosed.
  - destruct Hx as [[? ?]|[? ?]]; congruence.
Qed.
End Walk.

(** The two resolvers are instances of the walk. *)
Lemma getMaterialCost_walk appData n visited cl :
  getMaterialCost appData n visited cl = walk appData (λ _ _ r, r) n visited cl.
Proof.
  unfold getMaterialCost, walk. generalize (depthBound appData). intros fuel.
  revert n visited. induction fuel as [|fuel IH]; intros n visited; [done|].
  simpl. destruct (materials appData !! n); [done|].
  destruct (findRecipe appData n); [|done].
  case_bool_decide; [done|]. apply costLoop_ext. intros i _. apply IH.
Qed.

Lemma getTotalCostIncludingStamina_walk appData n visited cl :
  getTotalCostIncludingStamina appData n visited cl
  = walk appData (addStaminaCost appData) n visited cl.
Proof.
  unfold getTotalCostIncludingStamina, walk.
  generalize (depthBound appData). intros fuel.
  revert n visited. induction fuel as [|fuel IH]; intros n visited; [done|].
  simpl. destruct (materials appData !! n); [done|].
  destruct (findRecipe appData n); [|done].
  case_bool_decide; [done|].
  erewrite costLoop_ext; [done|]. intros i _. apply IH.
Qed.

Lemma addStaminaCost_None appData n cl : addStaminaCost appData n cl None = None.
Proof. done. Qed.

Lemma addStaminaCost_Err appData n cl e :
  addStaminaCost appData n cl (Some (Err e)) = Some (Err e).
Proof. done. Qed.

Lemma addStaminaCost_Num appData n cl c :
  ∃ c', addStaminaCost appData n cl (Some (Num c)) = Some (Num c').
Proof.
  simpl. destruct (getStamina_is_Some appData n ∅ cl) as [s ->]. by eexists.
Qed.

(** Both resolvers always return (a number or an error object). *)
Lemma getMaterialCost_is_Some appData n visited cl :
  is_Some (getMaterialCost appData n visited cl).
Proof. rewrite getMaterialCost_walk. apply walk_is_Some; eauto. Qed.

Lemma getTotalCostIncludingStamina_is_Some appData n visited cl :
  is_Some (getTotalCostIncludingStamina appData n visited cl).
Proof.
  rewrite getTotalCostIncludingStamina_walk.
  apply walk_is_Some; eauto using addStaminaCost_Num.
Qed.

(** ** Arithmetic helpers *)

Lemma Num_eq (a b : Qc) : this a == this b → Some (Num a) = Some (Num b).
Proof. intros H. by rewrite (Qc_is_canon a b H). Qed.

Lemma Qc_some_eq (a b : Qc) : this a == this b → Some a = Some b.
Proof. intros H. by rewrite (Qc_is_canon a b H). Qed.

Lemma half_half : half + half = 1.
Proof. by apply Qc_is_canon. Qed.

Lemma ofZ_floor_le (x : Qc) : ofZ (floorQc x) ≤ x.
Proof.
  unfold Qcle, ofZ, floorQc. simpl. rewrite Qred_correct. apply Qfloor_le.
Qed.

Lemma lt_ofZ_floor (x : Qc) : x < ofZ (floorQc x) + 1.
Proof.
  unfold Qclt, ofZ, Qcplus, floorQc. simpl. rewrite !Qred_correct.
  change 1%Q with (inject_Z 1). rewrite <- inject_Z_plus.
  apply Qlt_floor.
Qed.

(** [Math.round] leaves integers alone. *)
Lemma Math_round_ofZ (z : Z) : Math_round (ofZ z) = ofZ z.
Proof.
  unfold Math_round, floorQc. f_equal. apply Z.le_antisymm.
  - apply Z.lt_succ_r. rewrite Zlt_Qlt. eapply Qle_lt_trans; [apply Qfloor_le|].
    unfold ofZ, Qcplus. simpl. rewrite !Qred_correct.
    unfold Z.succ. rewrite inject_Z_plus.
    apply Qplus_lt_r. reflexivity.
  - rewrite <- (Qfloor_Z z) at 1. apply Qfloor_resp_le.
    unfold ofZ, Qcplus. simpl. rewrite !Qred_correct.
    rewrite <- (Qplus_0_r (inject_Z z)) at 1. apply Qplus_le_r. discriminate.
Qed.

(** [toFixed] of a non-negative number prints the integer nearest to
    [x * 10^digits], halves up, with no sign. *)
Lemma toFixed_nearest (digits : nat) (x : Qc) :
  0 ≤ x →
  fx_neg (toFixed digits x) = false ∧
  fx_digits (toFixed digits x) = digits ∧
  ofZ (fx_units (toFixed digits x)) - half ≤ x * ofZ (pow10 digits) ∧
  x * ofZ (pow10 digits) < ofZ (fx_units (toFixed digits x)) + half.
Proof.
  intros Hx. unfold toFixed. cbn [fx_neg fx_units fx_digits].
  rewrite bool_decide_false by (by apply Qcle_not_lt). cbv iota.
  split; [done|]. split; [done|].
  set (y := x * ofZ (pow10 digits)).
  pose proof (ofZ_floor_le (y + half)) as Hlo.
  pose proof (lt_ofZ_floor (y + half)) as Hhi.
  split.
  - apply (Qcplus_le_mono_r _ _ half).
    replace (ofZ (floorQc (y + half)) - half + half)
      with (ofZ (floorQc (y + half))) by ring.
    done.
  - apply (Qcplus_lt_mono_r _ _ half).
    replace (ofZ (floorQc (y + half)) + half + half)
      with (ofZ (floorQc (y + half)) + (half + half)) by ring.
    by rewrite half_half.
Qed.

(** Linear facts on [Qc], through [Q]. *)
Ltac to_Q :=
  unfold Qcle, Qclt, Qcminus, Qcplus, Qcmult, Qcopp, ofZ, half, Q2Qc in *;
  cbn [this] in *; rewrite ?Qred_correct in *; unfold inject_Z in *.

Lemma ofZ_le (a b : Z) : (a ≤ b)%Z → ofZ a ≤ ofZ b.
Proof.
  intros H. unfold Qcle, ofZ, Q2Qc. cbn [this]. rewrite !Qred_correct.
  by rewrite <- Zle_Qle.
Qed.

Lemma ofZ_0 : ofZ 0 = 0.
Proof. by apply Qc_is_canon. Qed.

Lemma ofZ_1 : ofZ 1 = 1.
Proof. by apply Qc_is_canon. Qed.

Lemma ofZ_nonneg (i : Z) : (0 ≤ i)%Z → 0 ≤ ofZ i.
Proof. intros H. rewrite <- ofZ_0. by apply ofZ_le. Qed.


Lemma pow10_nonzero (digits : nat) : ofZ (pow10 digits) ≠ 0.
Proof.
  unfold pow10. intros H. apply (f_equal this) in H.
  assert (0 < 10 ^ Z.of_nat digits)%Z as Hpos by (apply Z.pow_pos_nonneg; lia).
  unfold ofZ, Q2Qc in H. cbn [this] in H.
  assert (Qred (inject_Z (10 ^ Z.of_nat digits)) == 0)%Q as Hq by (by rewrite H).
  rewrite Qred_correct in Hq. unfold Qeq in Hq. simpl in Hq. lia.
Qed.

Lemma Fixed_value_scaled (f : Fixed) :
  Fixed_value f * ofZ (pow10 (fx_digits f))
  = if fx_neg f then - ofZ (fx_units f) else ofZ (fx_units f).
Proof.
  unfold Fixed_value. pose proof (pow10_nonzero (fx_digits f)) as Hp.
  destruct (fx_neg f); cbv zeta; field; exact Hp.
Qed.

(** [toFixed] prints a string of [digits] decimals nearest to its
    argument, whatever the sign. *)
Lemma toFixed_near (digits : nat) (x : Qc) : printedNear digits (toFixed digits x) x.
Proof.
  unfold printedNear. split; [done|].
  pose proof (Fixed_value_scaled (toFixed digits x)) as Hs.
  change (fx_digits (toFixed digits x)) with digits in Hs. rewrite Hs. clear Hs.
  destruct (decide (0 ≤ x)) as [Hx|Hx].
  - destruct (toFixed_nearest digits x Hx) as (-> & _ & Hlo & Hhi).
    split; [done|by apply Qclt_le_weak].
  - apply Qcnot_le_lt in Hx.
    assert (0 ≤ - x) as Hnx.
    { apply (Qcplus_le_mono_r _ _ x). ring_simplify. by apply Qclt_le_weak. }
    destruct (toFixed_nearest digits (- x) Hnx) as (_ & _ & Hlo & Hhi).
    assert (fx_neg (toFixed digits x) = true ∧
            fx_units (toFixed digits x) = fx_units (toFixed digits (- x)))
      as [-> ->].
    { unfold toFixed. cbn [fx_neg fx_units].
      rewrite (bool_decide_true (x < 0)) by done.
      rewrite (bool_decide_false (- x < 0)) by (by apply Qcle_not_lt).
      done. }
    set (u := ofZ (fx_units (toFixed digits (- x)))) in *.
    set (p := ofZ (pow10 digits)) in *.
    clearbody u p. to_Q. split; lra.
Qed.

(** ** Requirement schedule (C8) *)

(** C8. [getReqCount] follows the literal step table on every delivery
    index from 1 on (1 -> 1, 2 -> 2, 3..10 -> 3, 11..20 -> 5, 21 and
    above -> 10) and is non-decreasing over those indices. *)
Theorem getReqCount_step_table :
  getReqCount 1 = 1%Z ∧ getReqCount 2 = 2%Z ∧
  (∀ i, (3 ≤ i ≤ 10)%Z → getReqCount i = 3%Z) ∧
  (∀ i, (11 ≤ i ≤ 20)%Z → getReqCount i = 5%Z) ∧
  (∀ i, (21 ≤ i)%Z → getReqCount i = 10%Z) ∧
  (∀ i j, (1 ≤ i ≤ j)%Z → (getReqCount i ≤ getReqCount j)%Z).
Proof.
  repeat split; try done; intros; unfold getReqCount;
    repeat (case_bool_decide; simpl); lia.
Qed.

(** ** Stamina value (C9) *)

Lemma wlb_gain_pos (level : Qc) : 1 < level → 0 < ofZ 13 * (level - 1).
Proof.
  intros Hl. apply Qcmult_pos_pos; [done|].
  by apply Qclt_minus_iff in Hl.
Qed.

(** C9. For a level [<= 1] the converter returns the sentinel 99999;
    so does a non-positive denominator [13 * (level - 1)]; for a level
    [> 1] it returns [1000 / (13 * (level - 1))] printed by
    [toFixed(2)], i.e. the unsigned integer number of hundredths
    nearest to the quotient; level 6 prints as 15.38. *)
Theorem calculateStaminaCost_spec (level : Qc) :
  (level ≤ 1 → calculateStaminaCost level = Sentinel (ofZ 99999)) ∧
  (ofZ 13 * (level - 1) ≤ 0 →
     calculateStaminaCost level = Sentinel (ofZ 99999)) ∧
  (1 < level →
     let quotient := ofZ 1000 / (ofZ 13 * (level - 1)) in
     let printed := toFixed 2 quotient in
     calculateStaminaCost level = Formatted printed ∧
     fx_neg printed = false ∧ fx_digits printed = 2%nat ∧
     ofZ (fx_units printed) - half ≤ quotient * ofZ 100 ∧
     quotient * ofZ 100 < ofZ (fx_units printed) + half) ∧
  (∃ printed, calculateStaminaCost (ofZ 6) = Formatted printed ∧
              render printed = "15.38").
Proof.
  split; [|split; [|split]].
  - intros Hl. unfold calculateStaminaCost. by rewrite bool_decide_true.
  - intros Hd. unfold calculateStaminaCost.
    case_bool_decide; [done|]. by rewrite bool_decide_true.
  - intros Hl. cbv zeta.
    assert (0 ≤ ofZ 1000 / (ofZ 13 * (level - 1))) as Hq.
    { apply Qclt_le_weak, Qcmult_pos_pos; [done|].
      by apply Qcinv_pos, wlb_gain_pos. }
    destruct (toFixed_nearest 2 _ Hq) as (Hneg & Hdig & Hlo & Hhi).
    split; [|done].
    unfold calculateStaminaCost.
    rewrite bool_decide_false by (by apply Qclt_not_le).
    rewrite bool_decide_false by (by apply Qclt_not_le, wlb_gain_pos).
    done.
  - eexists. split; [by vm_compute|]. by vm_compute.
Qed.

Lemma calculateStaminaCost_spec_witness :
  calculateStaminaCost (ofZ 1) = Sentinel (ofZ 99999) ∧
  fx_units (toFixed 2 (ofZ 1000 / (ofZ 13 * (ofZ 2 - 1)))) = 7692%Z.
Proof.
  destruct (calculateStaminaCost_spec (ofZ 1)) as (H1 & _).
  destruct (calculateStaminaCost_spec (ofZ 2)) as (_ & _ & H2 & _).
  split; [by apply H1|]. by vm_compute.
Defined.

(** ** Efficiency optimiser (C6, C7, C10) *)

Lemma sumReqCount_succ (m : Z) :
  (0 ≤ m)%Z → sumReqCount (m + 1) = (sumReqCount m + getReqCount (m + 1))%Z.
Proof.
  intros Hm. unfold sumReqCount.
  rewrite seqZ_app by lia. rewrite foldl_app. simpl.
  by rewrite (Z.add_comm 1 m).
Qed.

Lemma searchLoop_spec unitCost reward limit (iters : nat) (m : Z) :
  (0 ≤ m)%Z →
  let m' := searchLoop unitCost reward limit iters m (sumReqCount m) in
  (m ≤ m' ≤ m + Z.of_nat iters)%Z ∧
  (∀ i, (m < i ≤ m')%Z → passes unitCost reward limit i) ∧
  ((m' < m + Z.of_nat iters)%Z → ¬ passes unitCost reward limit (m' + 1)).
Proof.
  revert m. induction iters as [|iters IH]; intros m Hm; cbv zeta.
  - simpl. repeat split; intros; lia.
  - cbn [searchLoop]. rewrite <- sumReqCount_succ by done.
    case_bool_decide as Hpass.
    + destruct (IH (m + 1)%Z ltac:(lia)) as (Hrange & Hall & Hstop).
      split; [lia|]. split.
      * intros i Hi. destruct (decide (i = m + 1)%Z) as [->|]; [done|].
        apply Hall. lia.
      * intros Hlt. apply Hstop. lia.
    + split; [lia|]. split; [intros; lia|]. by intros _.
Qed.

Lemma find_milestone (m : Z) :
  (1 ≤ m)%Z →
  ∃ ms, List.find (λ k, bool_decide (k ≤ m)%Z) milestones = Some ms ∧
        ms ∈ milestones ∧ (ms ≤ m)%Z ∧
        ∀ k, k ∈ milestones → (k ≤ m)%Z → (k ≤ ms)%Z.
Proof.
  intros Hm. unfold milestones. simpl.
  repeat case_bool_decide; try lia;
    (eexists; split; [done|]; split; [set_solver|]; split; [lia|];
     intros k Hk Hle;
     repeat (apply elem_of_cons in Hk as [->|Hk]; [lia|]);
     by apply elem_of_nil in Hk).
Qed.

Lemma calcEfficiency_resolved appData itemName reward deliveryMode coin cost stam :
  let level := conservationLevelOf (settings appData) in
  getMaterialCost appData itemName ∅ level = Some (Num coin) →
  getTotalCostIncludingStamina appData itemName ∅ level = Some (Num cost) →
  getStamina appData itemName ∅ level = Some stam →
  calcEfficiency appData itemName reward deliveryMode
  = Some (decide_deliveries (settings appData) reward deliveryMode coin cost stam).
Proof.
  cbv zeta. intros Hcoin Hcost Hstam.
  unfold calcEfficiency, calcEfficiency_body. by rewrite Hcoin, Hcost, Hstam.
Qed.


Lemma passes_first cost reward limit :
  passes cost reward limit 1 ↔ limit ≤ ratio reward cost.
Proof.
  unfold passes. change (sumReqCount 1) with 1%Z.
  by rewrite ofZ_1, !Qcmult_1_r.
Qed.

Lemma searchLoop_positive_iff cost reward limit :
  (1 ≤ searchLoop cost reward limit 50 0 0)%Z ↔ limit ≤ ratio reward cost.
Proof.
  rewrite <- passes_first.
  destruct (searchLoop_spec cost reward limit 50 0 ltac:(lia))
    as (Hrange & Hall & Hstop).
  change (sumReqCount 0) with 0%Z in *. split.
  - intros Hm. apply Hall. lia.
  - intros Hpass. destruct (decide (1 ≤ searchLoop cost reward limit 50 0 0)%Z)
      as [|Hlt]; [done|].
    exfalso. apply Hstop; [lia|].
    by replace (searchLoop cost reward limit 50 0 0 + 1)%Z with 1%Z by lia.
Qed.

Lemma deliveryMap_Some label k :
  deliveryMap !! label = Some k →
  (label, k) ∈ [("1", 1); ("2", 2); ("3", 10); ("5", 20); ("10", 25)]%Z.
Proof. apply elem_of_list_to_map_2. Qed.

Lemma fixed_count_milestone label k :
  (label, k) ∈ [("1", 1); ("2", 2); ("3", 10); ("5", 20); ("10", 25)]%Z →
  k ∈ milestones ∧ k ≠ 0%Z ∧ label ≠ "default" ∧ label ∈ modeLabels.
Proof.
  intros Hin.
  repeat (apply elem_of_cons in Hin as [[= -> ->]|Hin];
          [unfold milestones, modeLabels; repeat split; try done; set_solver|]).
  by apply elem_of_nil in Hin.
Qed.

Lemma searchLoop_range cost reward limit :
  (0 ≤ searchLoop cost reward limit 50 0 0 ≤ 50)%Z.
Proof.
  destruct (searchLoop_spec cost reward limit 50 0 ltac:(lia)) as (Hr & _).
  change (sumReqCount 0) with 0%Z in Hr. lia.
Qed.

(** The four ways out of [decide_deliveries] with a non-zero cost. *)
Lemma decide_deliveries_cases s reward label coin cost stam :
  cost ≠ 0 →
  let m := searchLoop cost reward (efficiency_limit s) 50 0 0 in
  (label = "default" ∧ m = 0%Z ∧
   decide_deliveries s reward label coin cost stam
   = Report (report label false None (Some "납품 비추천 (효율 낮음)") 1
               (reward * ofZ 1) (reward / (cost * ofZ 1)) cost coin stam)) ∨
  (label = "default" ∧ (1 ≤ m)%Z ∧
   ∃ k, k ∈ milestones ∧ (k ≤ m)%Z ∧
        (∀ k', k' ∈ milestones → (k' ≤ m)%Z → (k' ≤ k)%Z) ∧
        decide_deliveries s reward label coin cost stam
        = Report (report "default" true (Some k) None (sumReqCount k)
                    (reward * ofZ k)
                    (ratio (reward * ofZ k) (cost * ofZ (sumReqCount k)))
                    cost coin stam)) ∨
  (∃ k, (label, k) ∈ [("1", 1); ("2", 2); ("3", 10); ("5", 20); ("10", 25)]%Z ∧
        decide_deliveries s reward label coin cost stam
        = Report (report label true (Some k) None (sumReqCount k)
                    (reward * ofZ k)
                    (ratio (reward * ofZ k) (cost * ofZ (sumReqCount k)))
                    cost coin stam)) ∨
  (label ≠ "default" ∧ deliveryMap !! label = None ∧
   decide_deliveries s reward label coin cost stam = NotANumber label).
Proof.
  intros Hnz. cbv zeta. unfold decide_deliveries.
  rewrite bool_decide_false by done.
  case_bool_decide as Hdef.
  - pose proof (searchLoop_range cost reward (efficiency_limit s)) as Hrange.
    case_bool_decide as Hzero.
    + left. by rewrite Hzero.
    + right. left. split; [done|]. split; [lia|].
      destruct (find_milestone (searchLoop cost reward (efficiency_limit s)
                                  50 0 0) ltac:(lia))
        as (k & -> & Hin & Hle & Hbest).
      exists k. by repeat split.
  - right. right. destruct (deliveryMap !! label) as [k|] eqn:Hmap.
    + left. exists k. apply deliveryMap_Some in Hmap. split; [done|].
      destruct (fixed_count_milestone label k Hmap) as (_ & Hk & _).
      by rewrite bool_decide_false by done.
    + right. done.
Qed.


Lemma sumReqCount_values :
  sumReqCount 1 = 1%Z ∧ sumReqCount 2 = 3%Z ∧ sumReqCount 10 = 27%Z ∧
  sumReqCount 20 = 77%Z ∧ sumReqCount 25 = 127%Z.
Proof. by vm_compute. Qed.

Lemma Qc_nonzero (q : Qc) : Qnum q ≠ 0%Z → q ≠ 0.
Proof. intros Hn ->. by apply Hn. Qed.



(** The three resolved numbers as a report prints them. *)
Lemma report_prints label rec rnd text items profit eff cost coin stam :
  let r := report label rec rnd text items profit eff cost coin stam in
  totalItems r = items ∧
  printedNear 1 (unitCost r) cost ∧
  printedNear 1 (consumedCoin r) (coin * ofZ items) ∧
  printedNear 0 (totalCost r) (cost * ofZ items) ∧
  printedNear 0 (totalStamina r) (stam * ofZ items) ∧
  printedNear 3 (averageEfficiency r) eff.
Proof. cbv zeta. unfold report. cbn. repeat split; apply toFixed_near. Qed.



(** C10.  [calcEfficiency] works from what the three resolvers return
    at level 10 when [settings.conservation_level] is undefined, and at
    the value itself when it is defined: an error of [getMaterialCost]
    at that level is what it returns, a unit cost of 0 at that level
    gives [generic_cost_error], and otherwise, for a label of the mode
    selector, it returns a report whose [unitCost], [consumedCoin] and
    [totalStamina] print the unit cost, the material cost and the
    stamina resolved at that level (the last two times [totalItems]). *)
Theorem conservation_level_default appData itemName reward deliveryMode level :
  (conservation_level (settings appData) = None ∧ level = ofZ 10) ∨
  conservation_level (settings appData) = Some level →
  (∀ e, getMaterialCost appData itemName ∅ level = Some (Err e) →
        calcEfficiency appData itemName reward deliveryMode
        = Some (Failed e)) ∧
  (∀ coin cost stam,
     getMaterialCost appData itemName ∅ level = Some (Num coin) →
     getTotalCostIncludingStamina appData itemName ∅ level = Some (Num cost) →
     getStamina appData itemName ∅ level = Some stam →
     (cost = 0 →
      calcEfficiency appData itemName reward deliveryMode
      = Some (Failed generic_cost_error)) ∧
     (cost ≠ 0 → deliveryMode ∈ modeLabels →
      ∃ r, calcEfficiency appData itemName reward deliveryMode
           = Some (Report r) ∧
           printedNear 1 (unitCost r) cost ∧
           printedNear 1 (consumedCoin r) (coin * ofZ (totalItems r)) ∧
           printedNear 0 (totalStamina r) (stam * ofZ (totalItems r)))).
Proof.
  intros Hlevel.
  assert (conservationLevelOf (settings appData) = level) as Hof.
  { unfold conservationLevelOf. by destruct Hlevel as [[-> ->]| ->]. }
  split.
  - intros e He. unfold calcEfficiency, calcEfficiency_body.
    by rewrite Hof, He.
  - intros coin cost stam Hcoin Hcost Hstam. rewrite <- Hof in *.
    rewrite (calcEfficiency_resolved _ _ _ _ _ _ _ Hcoin Hcost Hstam).
    split.
    + intros ->. unfold decide_deliveries. by rewrite bool_decide_true.
    + intros Hnz Hlabel.
      pose proof report_prints as Hprints. cbv zeta in Hprints.
      destruct (decide_deliveries_cases (settings appData) reward deliveryMode
                  coin cost stam Hnz)
        as [(_ & _ & ->)|[(_ & _ & k & _ & _ & _ & ->)
           |[(k & _ & ->)|(Hne & Hmap & _)]]].
      * eexists. split; [done|].
        edestruct Hprints as (-> & ? & ? & _ & ? & _). done.
      * eexists. split; [done|].
        edestruct Hprints as (-> & ? & ? & _ & ? & _). done.
      * eexists. split; [done|].
        edestruct Hprints as (-> & ? & ? & _ & ? & _). done.
      * exfalso. unfold modeLabels in Hlabel.
        repeat (apply elem_of_cons in Hlabel as [->|Hlabel];
                [done || by vm_compute in Hmap|]).
        by apply elem_of_nil in Hlabel.
Qed.

Lemma conservation_level_default_witness :
  ∃ r, calcEfficiency noLevelData "T" (ofZ 5) "1" = Some (Report r) ∧
       render (consumedCoin r) = "10.0" ∧
       getMaterialCost noLevelData "T" ∅ (ofZ 10) = Some (Num (ofZ 10)) ∧
       getMaterialCost noLevelData "T" ∅ 0 = Some (Num (ofZ 20)).
Proof.
  assert (getMaterialCost noLevelData "T" ∅ (ofZ 10) = Some (Num (ofZ 10)))
    as Hcoin by (apply Num_eq; by vm_compute).
  destruct (conservation_level_default noLevelData "T" (ofZ 5) "1" (ofZ 10))
    as [_ Hnum]; [by left|].
  destruct (Hnum (ofZ 10) (ofZ 10) 0 Hcoin) as [_ Hreport].
  - apply Num_eq. by vm_compute.
  - apply Qc_some_eq. by vm_compute.
  - destruct Hreport as (r & Hr & _);
      [by apply Qc_nonzero|apply (bool_decide_unpack _); by vm_compute|].
    exists r. split; [exact Hr|].
    split; [|split; [exact Hcoin|apply Num_eq; by vm_compute]].
    vm_compute in Hr. injection Hr as <-. reflexivity.
Defined.

(** ** Materials (C4) *)

(** X23. For a known material: with a price [> 0] both cost resolvers
    return exactly that price; with a price [<= 0] both fail with
    [material_price_missing] carrying the material's name; and the
    stamina resolver returns 0 when no recipe is entered under the same
    name. *)
Theorem material_resolution appData name price visited cl :
  materials appData !! name = Some price →
  (0 < price →
     getMaterialCost appData name visited cl = Some (Num price) ∧
     getTotalCostIncludingStamina appData name visited cl = Some (Num price)) ∧
  (price ≤ 0 →
     getMaterialCost appData name visited cl
     = Some (Err (material_price_missing name)) ∧
     getTotalCostIncludingStamina appData name visited cl
     = Some (Err (material_price_missing name))) ∧
  (recipes appData !! name = None →
     getStamina appData name visited cl = Some 0).
Proof.
  intros Hm.
  rewrite getMaterialCost_walk, getTotalCostIncludingStamina_walk.
  rewrite !(walk_material _ _ _ _ _ _ Hm). unfold materialPrice.
  split; [|split].
  - intros Hpos. by rewrite bool_decide_false by (by apply Qclt_not_le).
  - intros Hle. by rewrite bool_decide_true.
  - apply getStamina_unknown.
Qed.

Lemma material_resolution_witness :
  getMaterialCost chainData "M" ∅ 0 = Some (Num (ofZ 10)) ∧
  getMaterialCost unsetData "M" ∅ 0 = Some (Err (material_price_missing "M")) ∧
  getStamina chainData "M" ∅ 0 = Some 0.
Proof.
  destruct (material_resolution chainData "M" (ofZ 10) ∅ 0 eq_refl)
    as (Hpos & _ & Hstam).
  destruct (material_resolution unsetData "M" 0 ∅ 0 eq_refl)
    as (_ & Hunset & _).
  split; [by apply Hpos|]. split; [by apply Hunset|]. by apply Hstam.
Defined.

(** C4 on a name entered both as a material and as a recipe: W is a
    material priced 10 and a recipe of stamina 3.  Both cost resolvers
    treat W as the material and return 10, with no stamina in the
    total; [getStamina], which never looks at the material table,
    returns 3 where the claim says 0, and [calcEfficiency] reports that
    stamina beside the material's cost. *)
Theorem material_with_recipe_name_has_stamina :
  materials overlapData !! "W" = Some (ofZ 10) ∧
  getMaterialCost overlapData "W" ∅ 0 = Some (Num (ofZ 10)) ∧
  getTotalCostIncludingStamina overlapData "W" ∅ 0 = Some (Num (ofZ 10)) ∧
  getStamina overlapData "W" ∅ 0 = Some (ofZ 3) ∧
  ∃ r, calcEfficiency overlapData "W" (ofZ 5) "1" = Some (Report r) ∧
       render (unitCost r) = "10.0" ∧ render (totalStamina r) = "3".
Proof.
  split; [by vm_compute|].
  split; [apply Num_eq; by vm_compute|].
  split; [apply Num_eq; by vm_compute|].
  split; [apply Qc_some_eq; by vm_compute|].
  eexists. split; [by vm_compute|]. split; by vm_compute.
Qed.

(** ** Stamina on a cycle (C2) *)

Lemma loop_edges :
  edge loopData "A" "B" ∧ edge loopData "B" "A".
Proof.
  split; (split; [by vm_compute|]); eexists; (split; [by vm_compute|]);
    set_solver.
Qed.


(** ** Cycles and diamonds in the cost resolvers (C3) *)

Section CostCycles.
Variable appData : AppData.

Local Abbreviation plain := (λ (_ : string) (_ : Qc) (r : option Result), r).

Lemma cost_fails_on_cycle x visited cl :
  tc (edge appData) x x →
  (∃ e, getMaterialCost appData x visited cl = Some (Err e)) ∧
  (∃ e, getTotalCostIncludingStamina appData x visited cl = Some (Err e)).
Proof.
  intros Hcyc.
  rewrite getMaterialCost_walk, getTotalCostIncludingStamina_walk. split.
  - apply walk_cycle_fails; eauto.
  - apply walk_cycle_fails;
      eauto using addStaminaCost_None, addStaminaCost_Err, addStaminaCost_Num.
Qed.

Lemma cost_error_is_circular x visited cl e :
  priced appData → closed appData → known appData x →
  getMaterialCost appData x visited cl = Some (Err e) ∨
  getTotalCostIncludingStamina appData x visited cl = Some (Err e) →
  ∃ n, e = circular_dependency n.
Proof.
  intros Hp Hc Hx Hrun.
  assert (error_kind e = KCircular) as Hkind.
  { destruct Hrun as [Hrun|Hrun].
    - rewrite getMaterialCost_walk in Hrun.
      eapply (costWalk_only_circular appData plain); eauto.
    - rewrite getTotalCostIncludingStamina_walk in Hrun.
      eapply (costWalk_only_circular appData (addStaminaCost appData));
        eauto using addStaminaCost_None, addStaminaCost_Err,
          addStaminaCost_Num. }
  destruct e; try done. by eexists.
Qed.

Lemma circular_report_is_a_cycle x cl n :
  getMaterialCost appData x ∅ cl = Some (Err (circular_dependency n)) ∨
  getTotalCostIncludingStamina appData x ∅ cl
  = Some (Err (circular_dependency n)) →
  tc (edge appData) n n.
Proof.
  intros [Hrun|Hrun].
  - rewrite getMaterialCost_walk in Hrun.
    eapply (costWalk_circular_sound appData plain); eauto. set_solver.
  - rewrite getTotalCostIncludingStamina_walk in Hrun.
    eapply (costWalk_circular_sound appData (addStaminaCost appData));
      eauto using addStaminaCost_None, addStaminaCost_Err,
        addStaminaCost_Num.
    set_solver.
Qed.

Lemma on_cycle_known x : tc (edge appData) x x → known appData x.
Proof.
  intros Hcyc. right.
  inversion Hcyc as [? ? (_ & r & Hr & _)|? ? ? (_ & r & Hr & _)]; by eexists.
Qed.
End CostCycles.





Lemma unset_edges :
  edge unsetData "A" "B" ∧ edge unsetData "B" "A".
Proof.
  split; (split; [by vm_compute|]); eexists; (split; [by vm_compute|]);
    set_solver.
Qed.

(** C3 as stated fails on the error kind: A and B use each other, but A
    first uses the material M whose price is unset, and that error is
    met before the cycle closes, whichever of A and B is queried. *)
Lemma cycle_behind_unset_price :
  edge unsetData "A" "B" ∧ edge unsetData "B" "A" ∧
  getMaterialCost unsetData "A" ∅ 0
  = Some (Err (material_price_missing "M")) ∧
  getTotalCostIncludingStamina unsetData "A" ∅ 0
  = Some (Err (material_price_missing "M")) ∧
  getMaterialCost unsetData "B" ∅ 0
  = Some (Err (material_price_missing "M")) ∧
  getTotalCostIncludingStamina unsetData "B" ∅ 0
  = Some (Err (material_price_missing "M")).
Proof.
  split; [apply unset_edges|]. split; [apply unset_edges|].
  repeat split; by vm_compute.
Qed.

(** Diamond reuse: S is reached through L and through R, and D resolves
    to numbers (4 crafts, one unit of M priced 10 on each branch). *)
Lemma diamond_resolves :
  getMaterialCost diamondData "D" ∅ 0 = Some (Num (ofZ 20)) ∧
  getTotalCostIncludingStamina diamondData "D" ∅ 0 = Some (Num (ofZ 31)).
Proof. split; apply Num_eq; by vm_compute. Qed.

(** C3, amended.  If recipes A and B lie on a common cycle of the
    recipe graph (A reaches B and B reaches A through ingredient
    lists, none of the names on the way being a material), then both
    cost resolvers fail on A and on B, whatever is queried first.  The
    error is the first one met in ingredient order: it has kind
    [circular_dependency] whenever nothing else can fail, i.e. every
    material has a price [> 0] and every ingredient name is known;
    otherwise an unset price or an unknown name met earlier is
    reported instead.  Conversely a [circular_dependency] report always
    names an item that lies on a cycle, so reuse of one ingredient by
    sibling branches (a diamond) never triggers it. *)
Theorem cost_cycle_detection appData a b cl :
  tc (edge appData) a b → tc (edge appData) b a →
  ((∃ e, getMaterialCost appData a ∅ cl = Some (Err e)) ∧
   (∃ e, getTotalCostIncludingStamina appData a ∅ cl = Some (Err e)) ∧
   (∃ e, getMaterialCost appData b ∅ cl = Some (Err e)) ∧
   (∃ e, getTotalCostIncludingStamina appData b ∅ cl = Some (Err e))) ∧
  (priced appData → closed appData →
   (∃ n, getMaterialCost appData a ∅ cl
         = Some (Err (circular_dependency n))) ∧
   (∃ n, getTotalCostIncludingStamina appData a ∅ cl
         = Some (Err (circular_dependency n))) ∧
   (∃ n, getMaterialCost appData b ∅ cl
         = Some (Err (circular_dependency n))) ∧
   (∃ n, getTotalCostIncludingStamina appData b ∅ cl
         = Some (Err (circular_dependency n)))) ∧
  (∀ x n,
     getMaterialCost appData x ∅ cl = Some (Err (circular_dependency n)) ∨
     getTotalCostIncludingStamina appData x ∅ cl
     = Some (Err (circular_dependency n)) →
     tc (edge appData) n n).
Proof.
  intros Hab Hba.
  assert (tc (edge appData) a a) as Ha by (by etrans).
  assert (tc (edge appData) b b) as Hb by (by etrans).
  destruct (cost_fails_on_cycle appData a ∅ cl Ha) as [[ea1 Ha1] [ea2 Ha2]].
  destruct (cost_fails_on_cycle appData b ∅ cl Hb) as [[eb1 Hb1] [eb2 Hb2]].
  split; [eauto 10|]. split.
  - intros Hp Hc.
    pose proof (on_cycle_known appData a Ha) as Hka.
    pose proof (on_cycle_known appData b Hb) as Hkb.
    destruct (cost_error_is_circular appData a ∅ cl ea1 Hp Hc Hka) as [? ->];
      [by left|].
    destruct (cost_error_is_circular appData a ∅ cl ea2 Hp Hc Hka) as [? ->];
      [by right|].
    destruct (cost_error_is_circular appData b ∅ cl eb1 Hp Hc Hkb) as [? ->];
      [by left|].
    destruct (cost_error_is_circular appData b ∅ cl eb2 Hp Hc Hkb) as [? ->];
      [by right|].
    eauto 10.
  - intros x n. apply circular_report_is_a_cycle.
Qed.

Lemma loop_priced_closed : priced loopData ∧ closed loopData.
Proof.
  split.
  - unfold priced. simpl. by apply map_Forall_singleton.
  - unfold closed, loopData, loopRecipes. simpl.
    apply map_Forall_insert_2; [|apply map_Forall_singleton]; simpl;
      repeat (apply Forall_cons; split;
              [first [ left; eexists; by vm_compute
                     | right; eexists; by vm_compute ]|]);
      by apply Forall_nil.
Qed.

Lemma cost_cycle_detection_witness :
  (∃ n, getMaterialCost loopData "A" ∅ 0
        = Some (Err (circular_dependency n))) ∧
  (∃ n, getTotalCostIncludingStamina loopData "B" ∅ 0
        = Some (Err (circular_dependency n))).
Proof.
  destruct (cost_cycle_detection loopData "A" "B" 0) as (_ & Hkind & _).
  - apply tc_once, loop_edges.
  - apply tc_once, loop_edges.
  - destruct (Hkind (proj1 loop_priced_closed) (proj2 loop_priced_closed))
      as (HA & _ & _ & HB).
    by split.
Defined.

(** ** Conservation level 0 (C5) *)

Lemma reductionFactor_zero (recipe : Recipe) : reductionFactor recipe 0 = 1.
Proof.
  unfold reductionFactor. destruct (exempt recipe); [done|].
  by apply Qc_is_canon.
Qed.

Lemma reducedCount_one (count : Qc) : reducedCount count 1 = Math_round count.
Proof. unfold reducedCount. by rewrite Qcmult_1_r. Qed.

(** C5 as stated fails for a count that is not integral: H needs 1.5
    units of M (priced 4); at level 0 the factor is 1, the effective
    count is [Math.round(1.5) = 2], and H costs 8, not 1.5 * 4 = 6. *)
Lemma level_zero_rounds_fractional_count :
  recipes halfData !! "H" = Some (mkRecipe 0 "x" [("M", Q2Qc (3 # 2))]) ∧
  reducedCount (Q2Qc (3 # 2))
    (reductionFactor (mkRecipe 0 "x" [("M", Q2Qc (3 # 2))]) 0) = ofZ 2 ∧
  getMaterialCost halfData "H" ∅ 0 = Some (Num (ofZ 8)) ∧
  Q2Qc (3 # 2) * ofZ 4 = ofZ 6.
Proof.
  split; [by vm_compute|].
  split; [apply Qc_is_canon; by vm_compute|].
  split; [apply Num_eq; by vm_compute|].
  apply Qc_is_canon. by vm_compute.
Qed.

(** C5, amended.  At conservation level 0 the reduction factor is 1 for
    every recipe, whatever its category, so the effective count of a
    raw count [c] is [Math.round(c)]: it equals [c] when [c] is
    integral, and with integral counts both loops compute exactly what
    they would with the raw counts.  (A count that is not integral is
    rounded half up.) *)
Theorem level_zero_keeps_integral_counts (recipe : Recipe) :
  reductionFactor recipe 0 = 1 ∧
  (∀ count, reducedCount count (reductionFactor recipe 0) = Math_round count) ∧
  (∀ count, integral count →
     reducedCount count (reductionFactor recipe 0) = count) ∧
  (∀ resolve entries cost, Forall integral entries.*2 →
     costLoop resolve (reductionFactor recipe 0) entries cost
     = rawCostLoop resolve entries cost) ∧
  (∀ resolve entries total, Forall integral entries.*2 →
     staminaLoop resolve (reductionFactor recipe 0) entries total
     = rawStaminaLoop resolve entries total).
Proof.
  rewrite reductionFactor_zero.
  assert (∀ count, integral count → reducedCount count 1 = count) as Hint.
  { intros count [z ->]. rewrite reducedCount_one. apply Math_round_ofZ. }
  split; [done|]. split; [apply reducedCount_one|]. split; [done|]. split.
  - intros resolve entries. induction entries as [|[n c] rest IH];
      intros cost Hall; [done|].
    apply Forall_cons in Hall as [Hc Hrest]. simpl.
    destruct (resolve n) as [[v|e]|]; try done.
    rewrite (Hint c Hc). by apply IH.
  - intros resolve entries. induction entries as [|[n c] rest IH];
      intros total Hall; [done|].
    apply Forall_cons in Hall as [Hc Hrest]. simpl.
    destruct (resolve n) as [v|]; try done.
    rewrite (Hint c Hc). by apply IH.
Qed.

Lemma level_zero_keeps_integral_counts_witness :
  reducedCount (ofZ 3) (reductionFactor (mkRecipe 0 "x" [("M", ofZ 3)]) 0)
  = ofZ 3.
Proof.
  destruct (level_zero_keeps_integral_counts (mkRecipe 0 "x" [("M", ofZ 3)]))
    as (_ & _ & Hkeep & _).
  apply Hkeep. by exists 3%Z.
Defined.

(** ** Stamina in the total cost (C1) *)

(** C1 at A -> B -> M (M priced 10, one craft of stamina 1 for A and for
    B, stamina valued 1): the material cost of A is 10 and its stamina
    is 2, so C1 gives 12; [getTotalCostIncludingStamina] returns 13.
    B's stamina is priced inside B's own total (11) and again inside
    the stamina of A. *)
Theorem total_cost_counts_nested_stamina_twice :
  stamina_cost (settings chainData) = 1 ∧
  getMaterialCost chainData "A" ∅ 0 = Some (Num (ofZ 10)) ∧
  getStamina chainData "A" ∅ 0 = Some (ofZ 2) ∧
  getTotalCostIncludingStamina chainData "B" ∅ 0 = Some (Num (ofZ 11)) ∧
  getTotalCostIncludingStamina chainData "A" ∅ 0 = Some (Num (ofZ 13)) ∧
  ofZ 10 + ofZ 2 * 1 = ofZ 12.
Proof.
  split; [done|].
  split; [apply Num_eq; by vm_compute|].
  split; [apply Qc_some_eq; by vm_compute|].
  split; [apply Num_eq; by vm_compute|].
  split; [apply Num_eq; by vm_compute|].
  apply Qc_is_canon. by vm_compute.
Qed.

(** Where the formula of C1 does hold: a recipe none of whose
    ingredients is a recipe (one level of crafting). *)
Lemma cost_resolvers_agree_off_recipes appData i visited cl :
  recipes appData !! i = None →
  getTotalCostIncludingStamina appData i visited cl
  = getMaterialCost appData i visited cl.
Proof.
  intros Hr. rewrite getMaterialCost_walk, getTotalCostIncludingStamina_walk.
  destruct (materials appData !! i) as [price|] eqn:Hm.
  - by rewrite !(walk_material _ _ _ _ _ _ Hm).
  - by rewrite !walk_unknown.
Qed.

(** X2. For a recipe none of whose ingredients is a recipe, the total
    cost is the material cost plus the stamina at its value, whenever
    the material cost is a number. *)
Lemma single_level_total appData name recipe cl cost stam :
  materials appData !! name = None →
  recipes appData !! name = Some recipe →
  Forall (λ i, recipes appData !! i = None) (ingredients recipe).*1 →
  getMaterialCost appData name ∅ cl = Some (Num cost) →
  getStamina appData name ∅ cl = Some stam →
  getTotalCostIncludingStamina appData name ∅ cl
  = Some (Num (cost + stam * stamina_cost (settings appData))).
Proof.
  intros Hm Hr Hleaf Hcost Hstam.
  rewrite getTotalCostIncludingStamina_walk.
  rewrite (walk_recipe _ _ _ _ _ recipe) by
    (eauto using addStaminaCost_None, addStaminaCost_Err, addStaminaCost_Num
     || set_solver).
  rewrite getMaterialCost_walk in Hcost.
  rewrite (walk_recipe _ _ _ _ _ recipe) in Hcost by (eauto || set_solver).
  erewrite costLoop_ext; [rewrite Hcost|].
  - simpl. by rewrite Hstam.
  - intros i Hi. simpl.
    rewrite <- getMaterialCost_walk, <- getTotalCostIncludingStamina_walk.
    apply cost_resolvers_agree_off_recipes.
    by eapply Forall_forall in Hleaf.
Qed.

Lemma single_level_total_witness :
  getTotalCostIncludingStamina chainData "B" ∅ 0
  = Some (Num (ofZ 10 + 1 * stamina_cost (settings chainData))).
Proof.
  apply (single_level_total chainData "B" (mkRecipe 1 "x" [("M", 1)])).
  - by vm_compute.
  - by vm_compute.
  - simpl. apply Forall_cons. split; [by vm_compute|]. by apply Forall_nil.
  - apply Num_eq. by vm_compute.
  - apply Qc_some_eq. by vm_compute.
Defined.

(** ** The resolvers and the optimiser always return *)

(** X1. On a dataset none of whose ingredient names is a member of
    [Object.prototype], every call of the three resolvers for a name
    that is not such a member, from any tracking set, returns: a number
    for [getStamina], a number or an error object for the two cost
    resolvers; so does [calcEfficiency]. *)
Theorem resolvers_always_return appData name visited cl reward mode :
  plainData appData → name ∉ Object_prototype →
  (∃ s, getStamina appData name visited cl = Some s) ∧
  (∃ r, getMaterialCost appData name visited cl = Some r) ∧
  (∃ r, getTotalCostIncludingStamina appData name visited cl = Some r) ∧
  (∃ o, calcEfficiency appData name reward mode = Some o).
Proof.
  intros _ _.
  split; [apply getStamina_is_Some|].
  split; [apply getMaterialCost_is_Some|].
  split; [apply getTotalCostIncludingStamina_is_Some|].
  unfold calcEfficiency, calcEfficiency_body.
  destruct (getMaterialCost_is_Some appData name ∅
              (conservationLevelOf (settings appData))) as [[c|e] ->];
    [|by eexists].
  destruct (getTotalCostIncludingStamina_is_Some appData name ∅
              (conservationLevelOf (settings appData))) as [[u|e] ->];
    [|by eexists].
  destruct (getStamina_is_Some appData name ∅
              (conservationLevelOf (settings appData))) as [st ->].
  by eexists.
Qed.


Lemma chain_plainData : plainData chainData.
Proof. apply (bool_decide_unpack _). by vm_compute. Qed.

Lemma resolvers_always_return_witness :
  ∃ o, calcEfficiency chainData "A" 1 "default" = Some o.
Proof.
  destruct (resolvers_always_return chainData "A" ∅ 0 1 "default")
    as (_ & _ & _ & Hreturns).
  - apply chain_plainData.
  - apply (bool_decide_unpack _). by vm_compute.
  - exact Hreturns.
Defined.

(** * Further properties of the resolvers and the optimiser *)
Lemma plain_Finisher : Finisher (λ _ _ r, r).
Proof. repeat split; eauto. Qed.

Lemma addStaminaCost_Finisher appData : Finisher (addStaminaCost appData).
Proof.
  split; [done|]. split; [done|]. apply addStaminaCost_Num.
Qed.

Lemma sameOutcome_refl r : sameOutcome (Some r) (Some r).
Proof. by destruct r. Qed.

Lemma costLoop_sameOutcome res1 res2 f1 f2 entries c1 c2 :
  (∀ i, i ∈ entries.*1 → sameOutcome (res1 i) (res2 i)) →
  sameOutcome (costLoop res1 f1 entries c1) (costLoop res2 f2 entries c2).
Proof.
  revert c1 c2. induction entries as [|[i c] rest IH]; intros c1 c2 Hsame; [done|].
  simpl. pose proof (Hsame i ltac:(simpl; left)) as Hi.
  destruct (res1 i) as [[w1|e1]|], (res2 i) as [[w2|e2]|]; try done.
  apply IH. intros j Hj. apply Hsame. simpl. by right.
Qed.

Lemma finish_sameOutcome fin1 fin2 n cl1 cl2 l1 l2 :
  Finisher fin1 → Finisher fin2 → sameOutcome l1 l2 →
  sameOutcome (fin1 n cl1 l1) (fin2 n cl2 l2).
Proof.
  intros (HN1 & HE1 & HV1) (HN2 & HE2 & HV2) Hsame.
  destruct l1 as [[c1|e1]|], l2 as [[c2|e2]|]; try done.
  - destruct (HV1 n cl1 c1) as [? ->], (HV2 n cl2 c2) as [? ->]. done.
  - by rewrite HE1, HE2.
  - by rewrite HN1, HN2.
Qed.

Lemma costWalk_sameOutcome appData fin1 fin2 fuel n visited cl1 cl2 :
  Finisher fin1 → Finisher fin2 →
  sameOutcome (costWalk appData fin1 fuel n visited cl1)
              (costWalk appData fin2 fuel n visited cl2).
Proof.
  intros H1 H2. revert n visited.
  induction fuel as [|fuel IH]; intros n visited; [done|].
  simpl. destruct (materials appData !! n); [apply sameOutcome_refl|].
  destruct (findRecipe appData n); [|done].
  case_bool_decide; [done|].
  apply finish_sameOutcome; [done..|].
  apply costLoop_sameOutcome. intros i _. apply IH.
Qed.

Lemma sameOutcome_Err r1 r2 e :
  sameOutcome r1 r2 → r1 = Some (Err e) ↔ r2 = Some (Err e).
Proof.
  destruct r1 as [[?|?]|], r2 as [[?|?]|]; try done; simpl.
  intros ->. done.
Qed.

Lemma cost_errors_agree appData name visited cl cl' e :
  getMaterialCost appData name visited cl = Some (Err e) ↔
  getTotalCostIncludingStamina appData name visited cl' = Some (Err e).
Proof.
  rewrite getMaterialCost_walk, getTotalCostIncludingStamina_walk.
  apply sameOutcome_Err, costWalk_sameOutcome;
    auto using plain_Finisher, addStaminaCost_Finisher.
Qed.

(** X3. The two cost resolvers fail alike, and failure does not depend
    on the conservation level: on the same item and tracking set,
    [getMaterialCost] and [getTotalCostIncludingStamina] return the same
    error object or both return a number, whatever level each is called
    with. *)
Theorem cost_resolvers_fail_alike appData name visited cl cl' e :
  (getMaterialCost appData name visited cl = Some (Err e) ↔
   getTotalCostIncludingStamina appData name visited cl' = Some (Err e)) ∧
  (getMaterialCost appData name visited cl = Some (Err e) ↔
   getMaterialCost appData name visited cl' = Some (Err e)) ∧
  (getTotalCostIncludingStamina appData name visited cl = Some (Err e) ↔
   getTotalCostIncludingStamina appData name visited cl' = Some (Err e)).
Proof.
  rewrite !getMaterialCost_walk, !getTotalCostIncludingStamina_walk.
  unfold walk.
  split; [|split]; apply sameOutcome_Err, costWalk_sameOutcome;
    auto using plain_Finisher, addStaminaCost_Finisher.
Qed.
Lemma costLoop_first_error res factor pre i c post cost e :
  (∀ j, j ∈ pre.*1 → ∃ w, res j = Some (Num w)) →
  res i = Some (Err e) →
  costLoop res factor (pre ++ (i, c) :: post) cost = Some (Err e).
Proof.
  revert cost. induction pre as [|[j cj] pre IH]; intros cost Hpre Hi; simpl.
  - by rewrite Hi.
  - destruct (Hpre j) as [w ->]; [simpl; left|].
    apply IH; [|done]. intros k Hk. apply Hpre. simpl. by right.
Qed.

Lemma first_error_wins appData name recipe visited cl pre i c post e :
  materials appData !! name = None →
  recipes appData !! name = Some recipe →
  name ∉ visited →
  ingredients recipe = pre ++ (i, c) :: post →
  (∀ j, j ∈ pre.*1 →
     ∃ w, getMaterialCost appData j (visited ∪ {[name]}) cl = Some (Num w)) →
  getMaterialCost appData i (visited ∪ {[name]}) cl = Some (Err e) →
  getMaterialCost appData name visited cl = Some (Err e).
Proof.
  intros Hm Hr Hv Hing Hpre Hi.
  rewrite getMaterialCost_walk.
  rewrite (walk_recipe _ _ _ _ _ recipe) by done.
  rewrite Hing. apply costLoop_first_error.
  - intros j Hj. rewrite <- getMaterialCost_walk. by apply Hpre.
  - by rewrite <- getMaterialCost_walk.
Qed.

(** X4. A recipe reports the error of its first failing ingredient: if
    the ingredients before [i] (in [Object.entries] order) resolve to
    numbers and [i] resolves to an error, both cost resolvers return
    that error object for the recipe; later ingredients are not
    consulted. *)
Theorem first_failing_ingredient_is_reported
    appData name recipe visited cl pre i c post e :
  materials appData !! name = None →
  recipes appData !! name = Some recipe →
  name ∉ visited →
  ingredients recipe = pre ++ (i, c) :: post →
  (∀ j, j ∈ pre.*1 →
     ∃ w, getMaterialCost appData j (visited ∪ {[name]}) cl = Some (Num w)) →
  getMaterialCost appData i (visited ∪ {[name]}) cl = Some (Err e) →
  getMaterialCost appData name visited cl = Some (Err e) ∧
  getTotalCostIncludingStamina appData name visited cl = Some (Err e).
Proof.
  intros Hm Hr Hv Hing Hpre Hi.
  assert (getMaterialCost appData name visited cl = Some (Err e)) as Hmat
    by (by eapply first_error_wins).
  split; [done|].
  by apply (cost_errors_agree appData name visited cl cl e).
Qed.

Lemma first_failing_ingredient_is_reported_witness :
  getMaterialCost loopData "A" ∅ 0 = Some (Err (circular_dependency "A")) ∧
  getTotalCostIncludingStamina loopData "A" ∅ 0
  = Some (Err (circular_dependency "A")).
Proof.
  apply (first_failing_ingredient_is_reported loopData "A"
           (mkRecipe 1 "x" [("M", 1); ("B", 1)]) ∅ 0
           [("M", 1)] "B" 1 []).
  - by vm_compute.
  - by vm_compute.
  - apply not_elem_of_empty.
  - done.
  - intros j Hj. apply list_elem_of_singleton in Hj as ->.
    exists (ofZ 10). apply Num_eq. by vm_compute.
  - by vm_compute.
Defined.

(** X5. A name that is neither a material nor a recipe, nor a member
    of [Object.prototype]: both cost resolvers return [item_not_found]
    with that name, [getStamina] returns 0, and [calcEfficiency]
    returns the same error object, whatever the reward and the mode. *)
Theorem unknown_item_is_not_found appData name visited cl reward mode :
  name ∉ Object_prototype →
  materials appData !! name = None → recipes appData !! name = None →
  getMaterialCost appData name visited cl = Some (Err (item_not_found name)) ∧
  getTotalCostIncludingStamina appData name visited cl
  = Some (Err (item_not_found name)) ∧
  getStamina appData name visited cl = Some 0 ∧
  calcEfficiency appData name reward mode = Some (Failed (item_not_found name)).
Proof.
  intros _ Hm Hr.
  assert (∀ v l, getMaterialCost appData name v l
                 = Some (Err (item_not_found name))) as Hmat.
  { intros v l. rewrite getMaterialCost_walk. by apply walk_unknown. }
  split; [done|]. split.
  - rewrite getTotalCostIncludingStamina_walk. by apply walk_unknown.
  - split; [by apply getStamina_unknown|].
    unfold calcEfficiency, calcEfficiency_body. by rewrite Hmat.
Qed.

Lemma unknown_item_is_not_found_witness :
  calcEfficiency chainData "Z" 1 "default" = Some (Failed (item_not_found "Z")).
Proof.
  apply (unknown_item_is_not_found chainData "Z" ∅ 0 1 "default");
    [apply (bool_decide_unpack _)|..]; by vm_compute.
Defined.

Lemma Math_round_mono (x y : Qc) : x ≤ y → Math_round x ≤ Math_round y.
Proof.
  intros H. apply ofZ_le. apply Qfloor_resp_le.
  by apply (Qcplus_le_mono_r x y half).
Qed.

Lemma Math_round_0 : Math_round 0 = 0.
Proof. rewrite <- ofZ_0 at 1. rewrite Math_round_ofZ. apply ofZ_0. Qed.

Lemma Math_round_nonneg (x : Qc) : 0 ≤ x → 0 ≤ Math_round x.
Proof. intros H. rewrite <- Math_round_0. by apply Math_round_mono. Qed.

Lemma Qcmult_le_mono (a b c d : Qc) :
  0 ≤ a → a ≤ b → 0 ≤ c → c ≤ d → a * c ≤ b * d.
Proof.
  intros Ha Hab Hc Hcd. etrans.
  - by apply Qcmult_le_mono_nonneg_l.
  - apply Qcmult_le_mono_nonneg_r; [|done]. by etrans.
Qed.

Lemma factor_range recipe cl :
  levelInRange cl →
  0 ≤ reductionFactor recipe cl ∧ reductionFactor recipe cl ≤ 1.
Proof.
  intros [H0 H20]. unfold reductionFactor. destruct (exempt recipe); [done|].
  split; to_Q; lra.
Qed.

Lemma factor_antitone recipe cl1 cl2 :
  cl1 ≤ cl2 → reductionFactor recipe cl2 ≤ reductionFactor recipe cl1.
Proof.
  intros H. unfold reductionFactor. destruct (exempt recipe); [done|].
  to_Q. lra.
Qed.

Lemma reducedCount_nonneg count factor :
  0 ≤ count → 0 ≤ factor → 0 ≤ reducedCount count factor.
Proof.
  intros Hc Hf. apply Math_round_nonneg. by apply Qcmult_nonneg_nonneg.
Qed.

Lemma reducedCount_mono count f1 f2 :
  0 ≤ count → f2 ≤ f1 → reducedCount count f2 ≤ reducedCount count f1.
Proof.
  intros Hc Hf. apply Math_round_mono. by apply Qcmult_le_mono_nonneg_l.
Qed.

Lemma staminaLoop_mono res1 res2 f1 f2 entries t1 t2 a1 a2 :
  (∀ i s1 s2, res1 i = Some s1 → res2 i = Some s2 → 0 ≤ s2 ∧ s2 ≤ s1) →
  0 ≤ f2 → f2 ≤ f1 → Forall (λ c, 0 ≤ c) entries.*2 →
  staminaLoop res1 f1 entries t1 = Some a1 →
  staminaLoop res2 f2 entries t2 = Some a2 →
  t2 ≤ t1 → t2 ≤ a2 ∧ a2 ≤ a1.
Proof.
  intros Hres Hf2 Hf. revert t1 t2.
  induction entries as [|[i c] rest IH]; intros t1 t2 Hcounts Hrun1 Hrun2 Ht.
  - simpl in *. by simplify_eq.
  - simpl in *. apply Forall_cons in Hcounts as [Hc Hrest].
    destruct (res1 i) as [s1|] eqn:H1; [|done].
    destruct (res2 i) as [s2|] eqn:H2; [|done].
    destruct (Hres i s1 s2 H1 H2) as [Hs2 Hs].
    assert (0 ≤ s2 * reducedCount c f2) as Hadd
      by (apply Qcmult_nonneg_nonneg; [done|by apply reducedCount_nonneg]).
    assert (s2 * reducedCount c f2 ≤ s1 * reducedCount c f1) as Hle.
    { apply Qcmult_le_mono; [done..|by apply reducedCount_nonneg
                           |by apply reducedCount_mono]. }
    destruct (IH _ _ Hrest Hrun1 Hrun2) as [Hlo Hhi].
    + by apply Qcplus_le_compat.
    + split; [|done]. etrans; [|done].
      rewrite <- (Qcplus_0_r t2) at 1. by apply Qcplus_le_mono_l.
Qed.

Lemma getStamina_fuel_mono appData fuel n visited l1 l2 s1 s2 :
  sane appData → levelInRange l1 → levelInRange l2 → l1 ≤ l2 →
  getStamina_fuel appData fuel n visited l1 = Some s1 →
  getStamina_fuel appData fuel n visited l2 = Some s2 →
  0 ≤ s2 ∧ s2 ≤ s1.
Proof.
  intros [Hsc Hsane] Hl1 Hl2 Hle. revert n visited s1 s2.
  induction fuel as [|fuel IH]; intros n visited s1 s2 Hrun1 Hrun2; [done|].
  simpl in *. case_bool_decide; [by simplify_eq|].
  unfold findRecipe in *.
  destruct (recipes appData !! n) as [r|] eqn:Hr; [|by simplify_eq].
  destruct (Hsane n r Hr) as [Hown Hcounts].
  destruct (staminaLoop _ (reductionFactor r l1) _ _) as [a1|] eqn:Hloop1;
    [|done].
  destruct (staminaLoop _ (reductionFactor r l2) _ _) as [a2|] eqn:Hloop2;
    [|done].
  destruct (staminaLoop_mono _ _ _ _ _ _ _ _ _
              (λ i, IH i (visited ∪ {[n]}))
              (proj1 (factor_range r l2 Hl2)) (factor_antitone r l1 l2 Hle)
              Hcounts Hloop1 Hloop2 (reflexivity _)) as [Hlo Hhi].
  destruct (_ && _); simplify_eq.
  - split.
    + apply Qcle_minus_iff in Hlo. done.
    + by apply Qcplus_le_mono_r.
  - split; [by etrans|done].
Qed.

Lemma costLoop_mono res1 res2 f1 f2 entries a1 a2 k1 k2 :
  (∀ i w1 w2, res1 i = Some (Num w1) → res2 i = Some (Num w2) →
     0 ≤ w2 ∧ w2 ≤ w1) →
  0 ≤ f2 → f2 ≤ f1 → Forall (λ c, 0 ≤ c) entries.*2 →
  costLoop res1 f1 entries a1 = Some (Num k1) →
  costLoop res2 f2 entries a2 = Some (Num k2) →
  0 ≤ a2 → a2 ≤ a1 → 0 ≤ k2 ∧ k2 ≤ k1.
Proof.
  intros Hres Hf2 Hf. revert a1 a2.
  induction entries as [|[i c] rest IH]; intros a1 a2 Hcounts Hrun1 Hrun2 H0 Ha.
  - simpl in *. by simplify_eq.
  - simpl in *. apply Forall_cons in Hcounts as [Hc Hrest].
    destruct (res1 i) as [[w1|?]|] eqn:H1; try done.
    destruct (res2 i) as [[w2|?]|] eqn:H2; try done.
    destruct (Hres i w1 w2 H1 H2) as [Hw2 Hw].
    apply (IH _ _ Hrest Hrun1 Hrun2).
    + apply Qcplus_nonneg_nonneg; [done|].
      apply Qcmult_nonneg_nonneg; [done|by apply reducedCount_nonneg].
    + apply Qcplus_le_compat; [done|].
      apply Qcmult_le_mono; [done..|by apply reducedCount_nonneg
                            |by apply reducedCount_mono].
Qed.

Lemma materialPrice_Num_pos n price c :
  materialPrice n price = Num c → c = price ∧ 0 ≤ c.
Proof.
  unfold materialPrice. case_bool_decide as Hle; [done|].
  intros [= <-]. split; [done|]. by apply Qclt_le_weak, Qclt_nge.
Qed.

Lemma costWalk_mono appData fin fuel n visited l1 l2 c1 c2 :
  sane appData → Finisher fin → FinMono fin l1 l2 →
  levelInRange l1 → levelInRange l2 → l1 ≤ l2 →
  costWalk appData fin fuel n visited l1 = Some (Num c1) →
  costWalk appData fin fuel n visited l2 = Some (Num c2) →
  0 ≤ c2 ∧ c2 ≤ c1.
Proof.
  intros [Hsc Hsane] (HN & HE & HV) Hmono Hl1 Hl2 Hle. revert n visited c1 c2.
  induction fuel as [|fuel IH]; intros n visited c1 c2 Hrun1 Hrun2; [done|].
  simpl in *. destruct (materials appData !! n) as [price|].
  { injection Hrun1 as Hrun1. injection Hrun2 as Hrun2.
    apply materialPrice_Num_pos in Hrun1 as [-> _].
    apply materialPrice_Num_pos in Hrun2 as [-> ?]. done. }
  unfold findRecipe in *.
  destruct (recipes appData !! n) as [r|] eqn:Hr; [|done].
  case_bool_decide; [done|].
  destruct (Hsane n r Hr) as [Hown Hcounts].
  pose proof (finish_Num_inv fin HN HE _ _ _ _ Hrun1) as [k1 Hloop1].
  pose proof (finish_Num_inv fin HN HE _ _ _ _ Hrun2) as [k2 Hloop2].
  rewrite Hloop1 in Hrun1. rewrite Hloop2 in Hrun2.
  destruct (costLoop_mono _ _ _ _ _ _ _ _ _
              (λ i, IH i (visited ∪ {[n]}))
              (proj1 (factor_range r l2 Hl2)) (factor_antitone r l1 l2 Hle)
              Hcounts Hloop1 Hloop2 (reflexivity _) (reflexivity _))
    as [Hk2 Hk].
  by eapply Hmono.
Qed.

Lemma plain_FinMono l1 l2 : FinMono (λ _ _ r, r) l1 l2.
Proof. intros n c1 c2 c1' c2' H0 Hle [= <-] [= <-]. done. Qed.

Lemma addStaminaCost_FinMono appData l1 l2 :
  sane appData → levelInRange l1 → levelInRange l2 → l1 ≤ l2 →
  FinMono (addStaminaCost appData) l1 l2.
Proof.
  intros Hsane Hl1 Hl2 Hle n c1 c2 c1' c2' H0 Hc. simpl.
  destruct (getStamina appData n ∅ l1) as [s1|] eqn:Hs1; [|done].
  destruct (getStamina appData n ∅ l2) as [s2|] eqn:Hs2; [|done].
  intros [= <-] [= <-].
  destruct (getStamina_fuel_mono _ _ _ _ _ _ _ _ Hsane Hl1 Hl2 Hle Hs1 Hs2)
    as [Hs0 Hs].
  destruct Hsane as [Hsc _]. split.
  - apply Qcplus_nonneg_nonneg; [done|]. by apply Qcmult_nonneg_nonneg.
  - apply Qcplus_le_compat; [done|]. by apply Qcmult_le_mono_nonneg_r.
Qed.

(** X6. With no negative stamina, ingredient count or stamina value in
    the dataset and a conservation level from 0 to 20, no resolver
    returns a negative number (material prices need no assumption: a
    price that is not positive is an error). *)
Theorem resolved_quantities_are_not_negative appData name visited cl :
  sane appData → levelInRange cl →
  (∀ c, getMaterialCost appData name visited cl = Some (Num c) → 0 ≤ c) ∧
  (∀ c, getTotalCostIncludingStamina appData name visited cl = Some (Num c) →
        0 ≤ c) ∧
  (∀ s, getStamina appData name visited cl = Some s → 0 ≤ s).
Proof.
  intros Hsane Hcl. split; [|split].
  - intros c Hrun. rewrite getMaterialCost_walk in Hrun.
    by eapply (costWalk_mono appData _ _ _ _ cl cl c c);
      eauto using plain_Finisher, plain_FinMono.
  - intros c Hrun. rewrite getTotalCostIncludingStamina_walk in Hrun.
    by eapply (costWalk_mono appData _ _ _ _ cl cl c c);
      eauto using addStaminaCost_Finisher, addStaminaCost_FinMono.
  - intros s Hrun.
    by eapply (getStamina_fuel_mono appData _ _ _ cl cl s s).
Qed.

(** X7. Raising the conservation level (within 0 to 20, on a dataset
    without negative quantities) never raises the number any of the
    three resolvers returns. *)
Theorem conservation_never_raises_a_result appData name visited l1 l2 :
  sane appData → levelInRange l1 → levelInRange l2 → l1 ≤ l2 →
  (∀ c1 c2, getMaterialCost appData name visited l1 = Some (Num c1) →
            getMaterialCost appData name visited l2 = Some (Num c2) →
            c2 ≤ c1) ∧
  (∀ c1 c2,
     getTotalCostIncludingStamina appData name visited l1 = Some (Num c1) →
     getTotalCostIncludingStamina appData name visited l2 = Some (Num c2) →
     c2 ≤ c1) ∧
  (∀ s1 s2, getStamina appData name visited l1 = Some s1 →
            getStamina appData name visited l2 = Some s2 → s2 ≤ s1).
Proof.
  intros Hsane Hl1 Hl2 Hle. split; [|split].
  - intros c1 c2 Hrun1 Hrun2. rewrite getMaterialCost_walk in Hrun1, Hrun2.
    by eapply (costWalk_mono appData _ _ _ _ l1 l2 c1 c2);
      eauto using plain_Finisher, plain_FinMono.
  - intros c1 c2 Hrun1 Hrun2.
    rewrite getTotalCostIncludingStamina_walk in Hrun1, Hrun2.
    by eapply (costWalk_mono appData _ _ _ _ l1 l2 c1 c2);
      eauto using addStaminaCost_Finisher, addStaminaCost_FinMono.
  - intros s1 s2 Hrun1 Hrun2.
    by eapply (getStamina_fuel_mono appData _ _ _ l1 l2 s1 s2).
Qed.







Lemma decide_deliveries_zero_cost s reward mode coin stam :
  decide_deliveries s reward mode coin 0 stam = Failed generic_cost_error.
Proof. unfold decide_deliveries. by rewrite bool_decide_true. Qed.


(** X9. A recipe without ingredients costs no coin; its stamina is its
    own stamina (0 for an exempt category when intermediate stamina is
    ignored); its total cost is that stamina at its value, and when
    this is 0 [calcEfficiency] returns [generic_cost_error] for every
    reward and mode. *)
Theorem recipe_without_ingredients appData name recipe visited cl :
  materials appData !! name = None →
  recipes appData !! name = Some recipe →
  ingredients recipe = [] →
  name ∉ visited →
  let own := if ignoreIntermediateStamina (settings appData) && exempt recipe
             then 0 else stamina recipe in
  getMaterialCost appData name visited cl = Some (Num 0) ∧
  getStamina appData name visited cl = Some own ∧
  getTotalCostIncludingStamina appData name visited cl
  = Some (Num (own * stamina_cost (settings appData))) ∧
  (own * stamina_cost (settings appData) = 0 →
   ∀ reward mode, calcEfficiency appData name reward mode
                  = Some (Failed generic_cost_error)).
Proof.
  intros Hm Hr Hing Hv. cbv zeta.
  assert (∀ v l, name ∉ v →
            getStamina appData name v l
            = Some (if ignoreIntermediateStamina (settings appData)
                       && exempt recipe
                    then 0 else stamina recipe)) as Hstam.
  { intros v l Hnv. rewrite (getStamina_recipe _ _ _ _ recipe) by done.
    rewrite Hing. simpl. destruct (_ && _); [|done].
    f_equal. unfold Qcminus. apply Qcplus_opp_r. }
  assert (∀ v l, name ∉ v → getMaterialCost appData name v l = Some (Num 0))
    as Hmat.
  { intros v l Hnv. rewrite getMaterialCost_walk.
    rewrite (walk_recipe _ _ _ _ _ recipe) by done. by rewrite Hing. }
  assert (∀ v l, name ∉ v →
            getTotalCostIncludingStamina appData name v l
            = Some (Num ((if ignoreIntermediateStamina (settings appData)
                             && exempt recipe
                          then 0 else stamina recipe)
                         * stamina_cost (settings appData)))) as Htot.
  { intros v l Hnv. rewrite getTotalCostIncludingStamina_walk.
    rewrite (walk_recipe _ _ _ _ _ recipe)
      by auto using addStaminaCost_None, addStaminaCost_Err,
           addStaminaCost_Num.
    rewrite Hing. simpl. rewrite Hstam by apply not_elem_of_empty.
    by rewrite Qcplus_0_l. }
  split; [by apply Hmat|]. split; [by apply Hstam|].
  split; [by apply Htot|].
  intros Hfree reward mode. unfold calcEfficiency, calcEfficiency_body.
  rewrite Hmat, Htot, Hstam by apply not_elem_of_empty.
  rewrite Hfree. by rewrite decide_deliveries_zero_cost.
Qed.



(** X11. What [calcEfficiency] can return: never the bare
    [{recommend: false, msg}] object of the guard [maxDeliveries === 0]
    (dead code); an object with a [NaN] profit only for a label outside
    the six the selector offers; for those six, an error object or a
    report, provided neither the item name nor an ingredient name of
    the dataset is a member of [Object.prototype]. *)
Theorem outcome_kinds appData itemName reward label :
  (∀ text, calcEfficiency appData itemName reward label ≠ Some (Bare text)) ∧
  (∀ l, calcEfficiency appData itemName reward label = Some (NotANumber l) →
        l = label ∧ label ∉ modeLabels) ∧
  (label ∈ modeLabels → itemName ∉ Object_prototype → plainData appData →
   (∃ e, calcEfficiency appData itemName reward label = Some (Failed e)) ∨
   (∃ r, calcEfficiency appData itemName reward label = Some (Report r))).
Proof.
  unfold calcEfficiency, calcEfficiency_body.
  destruct (getMaterialCost _ _ _ _) as [[coin|?]|] eqn:Hcoin.
  2:{ split; [done|]. split; [done|]. intros _ _ _. left. by eexists. }
  2:{ by destruct (getMaterialCost_is_Some appData itemName ∅
                     (conservationLevelOf (settings appData))) as [? ?];
        simplify_eq. }
  destruct (getTotalCostIncludingStamina _ _ _ _) as [[cost|?]|] eqn:Hcost.
  2:{ split; [done|]. split; [done|]. intros _ _ _. left. by eexists. }
  2:{ by destruct (getTotalCostIncludingStamina_is_Some appData itemName ∅
                     (conservationLevelOf (settings appData))) as [? ?];
        simplify_eq. }
  destruct (getStamina_is_Some appData itemName ∅
              (conservationLevelOf (settings appData))) as [stam ->].
  destruct (decide (cost = 0)) as [->|Hnz].
  { rewrite decide_deliveries_zero_cost.
    split; [done|]. split; [done|]. intros _ _ _. left. by eexists. }
  destruct (decide_deliveries_cases (settings appData) reward label coin cost
              stam Hnz)
    as [(Hl & _ & Heq)|[(Hl & _ & k & _ & _ & _ & Heq)|
        [(k & Hk & Heq)|(Hl & Hmap & Heq)]]];
    rewrite Heq.
  - split; [done|]. split; [done|]. intros _ _ _. right. by eexists.
  - split; [done|]. split; [done|]. intros _ _ _. right. by eexists.
  - split; [done|]. split; [done|]. intros _ _ _. right. by eexists.
  - split; [done|]. split.
    + intros l [= <-]. split; [done|]. unfold modeLabels.
      intros Hin.
      apply elem_of_cons in Hin as [->|Hin]; [done|].
      repeat (apply elem_of_cons in Hin as [->|Hin];
              [by vm_compute in Hmap|]).
      by apply elem_of_nil in Hin.
    + intros Hin _ _. exfalso. unfold modeLabels in Hin.
      apply elem_of_cons in Hin as [->|Hin]; [done|].
      repeat (apply elem_of_cons in Hin as [->|Hin];
              [by vm_compute in Hmap|]).
      by apply elem_of_nil in Hin.
Qed.

(** X12. [calcEfficiency] returns the error object [e] exactly when
    [getMaterialCost] of the item returns [e], or the total cost is the
    number 0 and [e] is [generic_cost_error]; the reward and the mode
    play no part. *)
Theorem calcEfficiency_failure appData itemName reward label e :
  let level := conservationLevelOf (settings appData) in
  calcEfficiency appData itemName reward label = Some (Failed e) ↔
  getMaterialCost appData itemName ∅ level = Some (Err e) ∨
  (e = generic_cost_error ∧
   getTotalCostIncludingStamina appData itemName ∅ level = Some (Num 0)).
Proof.
  cbv zeta. unfold calcEfficiency, calcEfficiency_body.
  set (level := conservationLevelOf (settings appData)).
  pose proof (cost_errors_agree appData itemName ∅ level level) as Hagree.
  destruct (getMaterialCost appData itemName ∅ level) as [[coin|e1]|] eqn:Hcoin.
  - destruct (getTotalCostIncludingStamina appData itemName ∅ level)
      as [[cost|e2]|] eqn:Hcost.
    + destruct (getStamina_is_Some appData itemName ∅ level) as [stam ->].
      destruct (decide (cost = 0)) as [->|Hnz].
      * rewrite decide_deliveries_zero_cost. split.
        -- intros [= <-]. by right.
        -- intros [?|[-> _]]; done.
      * split.
        -- intros [= Hout].
           destruct (decide_deliveries_cases (settings appData) reward label
                       coin cost stam Hnz)
             as [(_ & _ & Heq)|[(_ & _ & k & _ & _ & _ & Heq)|
                 [(k & _ & Heq)|(_ & _ & Heq)]]];
             by rewrite Heq in Hout.
        -- intros [?|[_ [= ->]]]; done.
    + destruct (Hagree e2) as [_ Hfrom]. by specialize (Hfrom eq_refl).
    + by destruct (getTotalCostIncludingStamina_is_Some appData itemName ∅
                     level) as [? ?]; simplify_eq.
  - split.
    + intros [= <-]. by left.
    + intros [[= <-]|[_ Htot]]; [done|].
      destruct (Hagree e1) as [Hto _]. rewrite (Hto eq_refl) in Htot. done.
  - by destruct (getMaterialCost_is_Some appData itemName ∅ level) as [? ?];
      simplify_eq.
Qed.

(** X13. In default mode, with a unit cost other than 0, a delivery is
    recommended exactly when the first delivery alone reaches the
    efficiency limit: [reward / unitCost >= efficiency_limit] (the
    ratio counting as 0 when the cost is negative). *)
Theorem recommended_iff_first_delivery_clears
    appData itemName reward coin cost stam :
  let level := conservationLevelOf (settings appData) in
  getMaterialCost appData itemName ∅ level = Some (Num coin) →
  getTotalCostIncludingStamina appData itemName ∅ level = Some (Num cost) →
  getStamina appData itemName ∅ level = Some stam →
  cost ≠ 0 →
  ∃ r, calcEfficiency appData itemName reward "default" = Some (Report r) ∧
       (recommend r = true ↔
        efficiency_limit (settings appData) ≤ ratio reward cost).
Proof.
  cbv zeta. intros Hcoin Hcost Hstam Hnz.
  rewrite (calcEfficiency_resolved _ _ _ _ _ _ _ Hcoin Hcost Hstam).
  pose proof (searchLoop_positive_iff cost reward
                (efficiency_limit (settings appData))) as Hiff.
  destruct (decide_deliveries_cases (settings appData) reward "default" coin
              cost stam Hnz)
    as [(_ & Hm & Heq)|[(_ & Hm & k & _ & _ & _ & Heq)|
        [(k & Hk & _)|(Hl & _)]]].
  - rewrite Heq. eexists. split; [done|]. simpl. split; [done|].
    intros Hpass. apply Hiff in Hpass. lia.
  - rewrite Heq. eexists. split; [done|]. simpl. split; [|done].
    intros _. by apply Hiff.
  - by destruct (fixed_count_milestone _ _ Hk) as (_ & _ & ? & _).
  - done.
Qed.

Lemma ratio_mono_reward r1 r2 i total :
  r1 ≤ r2 → (0 ≤ i)%Z →
  ratio (r1 * ofZ i) total ≤ ratio (r2 * ofZ i) total.
Proof.
  intros Hr Hi. unfold ratio. case_bool_decide as Hpos; [|done].
  unfold Qcdiv. apply Qcmult_le_mono_nonneg_r.
  - by apply Qclt_le_weak, Qcinv_pos.
  - apply Qcmult_le_mono_nonneg_r; [by apply ofZ_nonneg|done].
Qed.

Lemma searchLoop_ge cost reward limit iters m t :
  (m ≤ searchLoop cost reward limit iters m t)%Z.
Proof.
  revert m t. induction iters as [|iters IH]; intros m t; simpl; [done|].
  case_bool_decide; [|done]. etrans; [|apply IH]. lia.
Qed.

Lemma searchLoop_mono_reward cost r1 r2 limit iters m t :
  r1 ≤ r2 → (0 ≤ m)%Z →
  (searchLoop cost r1 limit iters m t ≤ searchLoop cost r2 limit iters m t)%Z.
Proof.
  intros Hr. revert m t. induction iters as [|iters IH]; intros m t Hm; simpl;
    [done|].
  case_bool_decide as H1.
  - rewrite bool_decide_true.
    + apply IH. lia.
    + etrans; [done|]. apply ratio_mono_reward; [done|lia].
  - case_bool_decide; [|done]. etrans; [|apply searchLoop_ge]. lia.
Qed.

(** X14. In default mode a higher reward for the same item never turns
    a recommendation into none and never lowers the recommended
    round. *)
Theorem higher_reward_never_lowers_round appData itemName r1 r2 a b :
  r1 ≤ r2 →
  calcEfficiency appData itemName r1 "default" = Some (Report a) →
  calcEfficiency appData itemName r2 "default" = Some (Report b) →
  (recommend a = true → recommend b = true) ∧
  (∀ k1 k2, round a = Some k1 → round b = Some k2 → (k1 ≤ k2)%Z).
Proof.
  intros Hr. unfold calcEfficiency, calcEfficiency_body.
  destruct (getMaterialCost _ _ _ _) as [[coin|?]|]; try done.
  destruct (getTotalCostIncludingStamina _ _ _ _) as [[cost|?]|]; try done.
  destruct (getStamina _ _ _ _) as [stam|]; try done.
  intros [= Ha] [= Hb].
  destruct (decide (cost = 0)) as [->|Hnz].
  { by rewrite decide_deliveries_zero_cost in Ha. }
  pose proof (searchLoop_mono_reward cost r1 r2
                (efficiency_limit (settings appData)) 50 0 0 Hr ltac:(lia))
    as Hmono.
  destruct (decide_deliveries_cases (settings appData) r1 "default" coin cost
              stam Hnz)
    as [(_ & Hm1 & Heq1)|[(_ & Hm1 & k1 & Hk1 & Hle1 & _ & Heq1)|
        [(k & Hk & _)|(Hl & _)]]];
    [| |by destruct (fixed_count_milestone _ _ Hk) as (_ & _ & ? & _)|done].
  - rewrite Heq1 in Ha. injection Ha as <-. simpl. done.
  - rewrite Heq1 in Ha. injection Ha as <-. simpl.
    destruct (decide_deliveries_cases (settings appData) r2 "default" coin
                cost stam Hnz)
      as [(_ & Hm2 & Heq2)|[(_ & Hm2 & k2 & Hk2 & Hle2 & Hbest2 & Heq2)|
          [(k & Hk & _)|(Hl & _)]]];
      [lia| |by destruct (fixed_count_milestone _ _ Hk) as (_ & _ & ? & _)
       |done].
    rewrite Heq2 in Hb. injection Hb as <-. simpl. split; [done|].
    intros ? ? [= <-] [= <-]. apply Hbest2; [done|lia].
Qed.

Lemma Qcinv_antitone (a b : Qc) : 0 < a → a ≤ b → / b ≤ / a.
Proof.
  intros Ha Hab.
  assert (0 < b) as Hb by (by eapply Qclt_le_trans).
  apply (Qcmult_le_mono_pos_r _ _ (a * b)); [by apply Qcmult_pos_pos|].
  assert (a ≠ 0) by (by apply Qclt_not_eq in Ha).
  assert (b ≠ 0) by (by apply Qclt_not_eq in Hb).
  replace (/ b * (a * b)) with a by (by field).
  replace (/ a * (a * b)) with b by (by field).
  done.
Qed.

(** X15. Above level 1 [calculateStaminaCost] always prints a number,
    never negative, and a higher level never prints a higher one; from
    level 2 on the printed value is at most 76.92. *)
Theorem stamina_value_decreases_with_level (l1 l2 : Qc) :
  1 < l1 → l1 ≤ l2 →
  ∃ f1 f2, calculateStaminaCost l1 = Formatted f1 ∧
           calculateStaminaCost l2 = Formatted f2 ∧
           fx_neg f1 = false ∧ fx_neg f2 = false ∧
           (0 ≤ fx_units f2 ≤ fx_units f1)%Z ∧
           (ofZ 2 ≤ l1 → (fx_units f1 ≤ 7692)%Z).
Proof.
  intros H1 Hle.
  assert (1 < l2) as H2 by (by eapply Qclt_le_trans).
  pose proof (wlb_gain_pos l1 H1) as Hg1.
  pose proof (wlb_gain_pos l2 H2) as Hg2.
  assert (∀ l, 1 < l →
            calculateStaminaCost l
            = Formatted (toFixed 2 (ofZ 1000 / (ofZ 13 * (l - 1))))) as Hcalc.
  { intros l Hl. unfold calculateStaminaCost.
    rewrite bool_decide_false by (by apply Qclt_not_le).
    by rewrite bool_decide_false by (by apply Qclt_not_le, wlb_gain_pos). }
  assert (∀ l, 1 < l → 0 ≤ ofZ 1000 / (ofZ 13 * (l - 1))) as Hq.
  { intros l Hl. apply Qclt_le_weak, Qcmult_pos_pos; [done|].
    by apply Qcinv_pos, wlb_gain_pos. }
  assert (∀ a b, 0 ≤ a → a ≤ b →
            (fx_units (toFixed 2 a) ≤ fx_units (toFixed 2 b))%Z) as Hmono.
  { intros a b Ha Hab. unfold toFixed. cbn [fx_units].
    rewrite !bool_decide_false
      by (apply Qcle_not_lt; done || by etrans).
    apply Qfloor_resp_le.
    apply (Qcplus_le_mono_r (a * ofZ (pow10 2)) (b * ofZ (pow10 2)) half).
    by apply Qcmult_le_mono_nonneg_r. }
  eexists _, _. split; [by apply Hcalc|]. split; [by apply Hcalc|].
  split; [by apply toFixed_nearest, Hq|].
  split; [by apply toFixed_nearest, Hq|].
  assert (ofZ 13 * (l1 - 1) ≤ ofZ 13 * (l2 - 1)) as Hden.
  { apply Qcmult_le_mono_nonneg_l; [done|]. by apply Qcplus_le_mono_r. }
  split; [split|].
  - change 0%Z with (fx_units (toFixed 2 0)). apply Hmono; [done|by apply Hq].
  - apply Hmono; [by apply Hq|]. unfold Qcdiv.
    apply Qcmult_le_mono_nonneg_l; [done|]. by apply Qcinv_antitone.
  - intros Hl1.
    change 7692%Z with (fx_units (toFixed 2 (ofZ 1000 / (ofZ 13 * (ofZ 2 - 1))))).
    apply Hmono; [by apply Hq|]. unfold Qcdiv.
    apply Qcmult_le_mono_nonneg_l; [done|]. apply Qcinv_antitone; [done|].
    apply Qcmult_le_mono_nonneg_l; [done|]. by apply Qcplus_le_mono_r.
Qed.

Lemma noLevel_sane : sane noLevelData.
Proof.
  split; [done|]. unfold noLevelData. simpl.
  apply map_Forall_singleton. split; [done|]. simpl.
  apply Forall_cons. split; [done|]. by apply Forall_nil.
Qed.

Lemma level_10_in_range : levelInRange (ofZ 10).
Proof. by split. Qed.

Lemma level_0_in_range : levelInRange 0.
Proof. by split. Qed.

Lemma resolved_quantities_are_not_negative_witness :
  ∃ c, getMaterialCost noLevelData "T" ∅ (ofZ 10) = Some (Num c) ∧ 0 ≤ c.
Proof.
  assert (∃ c, getMaterialCost noLevelData "T" ∅ (ofZ 10) = Some (Num c))
    as [c Hc] by (eexists; by vm_compute).
  exists c. split; [exact Hc|].
  destruct (resolved_quantities_are_not_negative noLevelData "T" ∅ (ofZ 10)
              noLevel_sane level_10_in_range) as (Hmat & _).
  apply Hmat. exact Hc.
Defined.

Lemma conservation_never_raises_a_result_witness :
  ∃ c1 c2, getMaterialCost noLevelData "T" ∅ 0 = Some (Num c1) ∧
           getMaterialCost noLevelData "T" ∅ (ofZ 10) = Some (Num c2) ∧
           c2 ≤ c1.
Proof.
  assert (∃ c, getMaterialCost noLevelData "T" ∅ 0 = Some (Num c))
    as [c1 Hc1] by (eexists; by vm_compute).
  assert (∃ c, getMaterialCost noLevelData "T" ∅ (ofZ 10) = Some (Num c))
    as [c2 Hc2] by (eexists; by vm_compute).
  exists c1, c2. split; [exact Hc1|]. split; [exact Hc2|].
  destruct (conservation_never_raises_a_result noLevelData "T" ∅ 0 (ofZ 10)
              noLevel_sane level_0_in_range level_10_in_range)
    as (Hmat & _); [done|].
  exact (Hmat c1 c2 Hc1 Hc2).
Defined.


Lemma recipe_without_ingredients_witness :
  calcEfficiency leafData "K" 1 "default" = Some (Failed generic_cost_error).
Proof.
  destruct (recipe_without_ingredients leafData "K" (mkRecipe (ofZ 2) "가공품" [])
              ∅ 0) as (_ & _ & _ & Hfail);
    [by vm_compute|by vm_compute|done|apply not_elem_of_empty|].
  apply Hfail. apply Qc_is_canon. by vm_compute.
Defined.


Lemma recommended_iff_first_delivery_clears_witness :
  ∃ r, calcEfficiency quarterData "P" 1 "default" = Some (Report r) ∧
       (recommend r = true ↔
        efficiency_limit (settings quarterData) ≤ ratio 1 (Q2Qc (5 # 4))).
Proof.
  apply (recommended_iff_first_delivery_clears quarterData "P" 1
           (Q2Qc (5 # 4)) (Q2Qc (5 # 4)) 0).
  - apply Num_eq. by vm_compute.
  - apply Num_eq. by vm_compute.
  - apply Qc_some_eq. by vm_compute.
  - by apply Qc_nonzero.
Defined.

Lemma higher_reward_never_lowers_round_witness :
  ∃ a b, calcEfficiency quarterData "P" 1 "default" = Some (Report a) ∧
         calcEfficiency quarterData "P" (ofZ 2) "default" = Some (Report b) ∧
         (recommend a = true → recommend b = true).
Proof.
  eexists _, _. split; [by vm_compute|]. split; [by vm_compute|].
  eapply (higher_reward_never_lowers_round quarterData "P" 1 (ofZ 2));
    [done|by vm_compute|by vm_compute].
Defined.

Lemma stamina_value_decreases_with_level_witness :
  ∃ f1 f2, calculateStaminaCost (ofZ 2) = Formatted f1 ∧
           calculateStaminaCost (ofZ 6) = Formatted f2 ∧
           (fx_units f2 ≤ fx_units f1)%Z.
Proof.
  destruct (stamina_value_decreases_with_level (ofZ 2) (ofZ 6))
    as (f1 & f2 & H1 & H2 & _ & _ & Hle & _); [done..|].
  exists f1, f2. split; [exact H1|]. split; [exact H2|]. lia.
Defined.

(** * Edits of the dataset *)

Section Local.
Variables d1 d2 : AppData.
Hypothesis same_settings : settings d1 = settings d2.

Lemma agreeFrom_step n r i :
  agreeFrom d1 d2 n → recipes d1 !! n = Some r → i ∈ (ingredients r).*1 →
  agreeFrom d1 d2 i.
Proof.
  intros Hag Hr Hi x Hx. apply Hag. eapply rtc_l; [|done]. by exists r.
Qed.

Lemma getStamina_local k n visited cl :
  (remaining d1 visited < k)%nat → agreeFrom d1 d2 n →
  getStamina d1 n visited cl = getStamina d2 n visited cl.
Proof.
  revert n visited. induction k as [|k IH]; intros n visited Hk Hag; [lia|].
  destruct (decide (n ∈ visited)) as [Hv|Hv].
  { by rewrite !getStamina_visited. }
  destruct (Hag n (rtc_refl _ _)) as [_ Hrec].
  destruct (recipes d1 !! n) as [r|] eqn:Hr.
  - rewrite (getStamina_recipe d1 _ _ _ r), (getStamina_recipe d2 _ _ _ r)
      by done.
    rewrite same_settings.
    erewrite staminaLoop_ext; [done|]. intros i Hi. simpl.
    apply IH.
    + pose proof (remaining_add d1 visited n (mk_is_Some _ _ Hr) Hv). lia.
    + by eapply agreeFrom_step.
  - by rewrite !getStamina_unknown.
Qed.

Lemma walk_local fin1 fin2 k n visited cl :
  Finisher fin1 → Finisher fin2 →
  (∀ x l, agreeFrom d1 d2 x → fin1 x cl l = fin2 x cl l) →
  (remaining d1 visited < k)%nat → agreeFrom d1 d2 n →
  walk d1 fin1 n visited cl = walk d2 fin2 n visited cl.
Proof.
  intros (HN1 & HE1 & HV1) (HN2 & HE2 & HV2) Hfin.
  revert n visited. induction k as [|k IH]; intros n visited Hk Hag; [lia|].
  destruct (Hag n (rtc_refl _ _)) as [Hmat Hrec].
  destruct (materials d1 !! n) as [price|] eqn:Hm.
  { by rewrite (walk_material d1 _ _ _ _ price),
               (walk_material d2 _ _ _ _ price). }
  destruct (recipes d1 !! n) as [r|] eqn:Hr.
  - destruct (decide (n ∈ visited)) as [Hv|Hv].
    { by rewrite !walk_revisit by eauto. }
    rewrite (walk_recipe d1 _ _ _ _ r), (walk_recipe d2 _ _ _ _ r) by done.
    rewrite Hfin by done. f_equal.
    apply costLoop_ext. intros i Hi. apply IH.
    + pose proof (remaining_add d1 visited n (mk_is_Some _ _ Hr) Hv). lia.
    + by eapply agreeFrom_step.
  - by rewrite !walk_unknown.
Qed.

Lemma resolvers_local n visited cl :
  agreeFrom d1 d2 n →
  getStamina d1 n visited cl = getStamina d2 n visited cl ∧
  getMaterialCost d1 n visited cl = getMaterialCost d2 n visited cl ∧
  getTotalCostIncludingStamina d1 n visited cl
  = getTotalCostIncludingStamina d2 n visited cl.
Proof.
  intros Hag. split; [|split].
  - by apply (getStamina_local (S (remaining d1 visited))); [lia|].
  - rewrite !getMaterialCost_walk.
    apply (walk_local _ _ (S (remaining d1 visited)));
      auto using plain_Finisher.
  - rewrite !getTotalCostIncludingStamina_walk.
    apply (walk_local _ _ (S (remaining d1 visited)));
      auto using addStaminaCost_Finisher.
    intros x l Hx. unfold addStaminaCost. rewrite same_settings.
    by rewrite (getStamina_local (S (remaining d1 ∅)) x ∅ cl) by (lia || done).
Qed.
End Local.

Lemma calcEfficiency_local d1 d2 n reward label :
  settings d1 = settings d2 → agreeFrom d1 d2 n →
  calcEfficiency d1 n reward label = calcEfficiency d2 n reward label.
Proof.
  intros Hs Hag. unfold calcEfficiency, calcEfficiency_body. rewrite Hs.
  destruct (resolvers_local d1 d2 Hs n ∅ (conservationLevelOf (settings d2))
              Hag) as (-> & -> & ->).
  done.
Qed.

(** X16. The resolvers and [calcEfficiency] read only the entries
    reachable from the item: two datasets with the same settings and
    the same material and recipe entries for the item and everything it
    uses, directly or through other recipes, give the same results. *)
Theorem resolution_is_local d1 d2 name visited cl reward label :
  settings d1 = settings d2 → agreeFrom d1 d2 name →
  getStamina d1 name visited cl = getStamina d2 name visited cl ∧
  getMaterialCost d1 name visited cl = getMaterialCost d2 name visited cl ∧
  getTotalCostIncludingStamina d1 name visited cl
  = getTotalCostIncludingStamina d2 name visited cl ∧
  calcEfficiency d1 name reward label = calcEfficiency d2 name reward label.
Proof.
  intros Hs Hag.
  destruct (resolvers_local d1 d2 Hs name visited cl Hag) as (H1 & H2 & H3).
  repeat split; try done. by apply calcEfficiency_local.
Qed.

Lemma agreeFrom_deleteItem type key appData n :
  ¬ rtc (uses appData) n key →
  agreeFrom appData (deleteItem type key appData) n.
Proof.
  intros Hfar x Hx. assert (key ≠ x) as Hne by (by intros ->).
  destruct type; simpl; by rewrite ?lookup_delete_ne.
Qed.

Lemma agreeFrom_addMaterial key price appData n :
  ¬ rtc (uses appData) n key →
  agreeFrom appData (addMaterial key price appData) n.
Proof.
  intros Hfar x Hx. assert (key ≠ x) as Hne by (by intros ->).
  unfold addMaterial. destruct price; [|done].
  repeat (case_bool_decide; [done|]). simpl. by rewrite lookup_insert_ne.
Qed.

Lemma settings_deleteItem type key appData :
  settings (deleteItem type key appData) = settings appData.
Proof. by destruct type. Qed.

Lemma settings_addMaterial key price appData :
  settings (addMaterial key price appData) = settings appData.
Proof.
  unfold addMaterial. destruct price; [|done].
  by repeat case_bool_decide.
Qed.

(** X17. Deleting a material or a recipe, or adding a material, under
    a name the item does not use (directly or through other recipes)
    changes no result for the item. *)
Theorem unrelated_edit_changes_nothing appData name key edited reward label :
  ¬ rtc (uses appData) name key →
  (∃ type, edited = deleteItem type key appData) ∨
  (∃ price, edited = addMaterial key price appData) →
  calcEfficiency edited name reward label
  = calcEfficiency appData name reward label ∧
  ∀ visited cl,
    getStamina edited name visited cl = getStamina appData name visited cl ∧
    getMaterialCost edited name visited cl
    = getMaterialCost appData name visited cl ∧
    getTotalCostIncludingStamina edited name visited cl
    = getTotalCostIncludingStamina appData name visited cl.
Proof.
  intros Hfar Hedit.
  assert (settings appData = settings edited ∧ agreeFrom appData edited name)
    as [Hs Hag].
  { destruct Hedit as [[type ->]|[price ->]].
    - split; [by rewrite settings_deleteItem|by apply agreeFrom_deleteItem].
    - split; [by rewrite settings_addMaterial|by apply agreeFrom_addMaterial]. }
  split; [symmetry; by apply calcEfficiency_local|].
  intros visited cl.
  destruct (resolvers_local appData edited Hs name visited cl Hag)
    as (-> & -> & ->).
  done.
Qed.

Lemma chain_M_far_from_Q : ¬ rtc (uses chainData) "M" "Q".
Proof.
  intros Hpath. inversion Hpath as [|? y ? (r & Hr & _)]; subst.
  by vm_compute in Hr.
Qed.

Lemma unrelated_edit_changes_nothing_witness :
  calcEfficiency (addMaterial "Q" (Some (ofZ 5)) chainData) "M" 1 "default"
  = calcEfficiency chainData "M" 1 "default".
Proof.
  destruct (unrelated_edit_changes_nothing chainData "M" "Q"
              (addMaterial "Q" (Some (ofZ 5)) chainData) 1 "default")
    as [Hsame _].
  - apply chain_M_far_from_Q.
  - right. by eexists.
  - exact Hsame.
Defined.

Lemma resolution_is_local_witness :
  getMaterialCost chainData "M" ∅ 0
  = getMaterialCost (deleteItem Recipes "A" chainData) "M" ∅ 0.
Proof.
  destruct (resolution_is_local chainData (deleteItem Recipes "A" chainData)
              "M" ∅ 0 1 "default") as (_ & Hmat & _).
  - done.
  - intros x Hx. split; [done|].
    inversion Hx as [|? y ? (r & Hr & _)]; subst; [by vm_compute|].
    by vm_compute in Hr.
  - exact Hmat.
Defined.

Lemma getStamina_reads_recipes_only d1 d2 n visited cl :
  recipes d1 = recipes d2 → settings d1 = settings d2 →
  getStamina d1 n visited cl = getStamina d2 n visited cl.
Proof.
  intros Hrec Hset. unfold getStamina, depthBound. rewrite Hrec.
  generalize (S (size (recipes d2))). intros fuel. revert n visited.
  induction fuel as [|fuel IH]; intros n visited; [done|].
  simpl. case_bool_decide; [done|]. unfold findRecipe. rewrite Hrec, Hset.
  destruct (recipes d2 !! n); [|done].
  erewrite staminaLoop_ext; [done|]. intros i _. apply IH.
Qed.

(** X18. After the add-material handler stores a price under a
    non-empty name other than [__proto__] (under which the assignment
    stores nothing), the name resolves to that price in both cost
    resolvers if the price is positive and to [material_price_missing]
    otherwise, even if a recipe of that name exists; no stamina
    changes; deleting the material again restores the dataset if the
    name was new. *)
Theorem added_material_resolves_to_its_price appData name price visited cl :
  name ≠ "" → name ≠ "__proto__" →
  let edited := addMaterial name (Some price) appData in
  materials edited !! name = Some price ∧
  (0 < price →
     getMaterialCost edited name visited cl = Some (Num price) ∧
     getTotalCostIncludingStamina edited name visited cl = Some (Num price)) ∧
  (price ≤ 0 →
     getMaterialCost edited name visited cl
     = Some (Err (material_price_missing name))) ∧
  (∀ n v l, getStamina edited n v l = getStamina appData n v l) ∧
  (materials appData !! name = None →
     deleteItem Materials name edited = appData).
Proof.
  intros Hname Hproto. cbv zeta. unfold addMaterial.
  rewrite !bool_decide_false by done.
  set (edited := {| materials := <[name:=price]> (materials appData);
                    recipes := recipes appData;
                    settings := settings appData |}).
  assert (materials edited !! name = Some price) as Hlook
    by apply lookup_insert_eq.
  split; [done|].
  split; [|split; [|split]].
  - intros Hpos.
    rewrite getMaterialCost_walk, getTotalCostIncludingStamina_walk.
    rewrite !(walk_material _ _ _ _ _ _ Hlook). unfold materialPrice.
    by rewrite bool_decide_false by (by apply Qclt_not_le).
  - intros Hle. rewrite getMaterialCost_walk.
    rewrite (walk_material _ _ _ _ _ _ Hlook). unfold materialPrice.
    by rewrite bool_decide_true.
  - intros n v l. by apply getStamina_reads_recipes_only.
  - intros Hnew. unfold deleteItem, edited. simpl.
    rewrite delete_insert_id by done. by destruct appData.
Qed.

Lemma added_material_resolves_to_its_price_witness :
  getMaterialCost (addMaterial "Q" (Some (ofZ 5)) chainData) "Q" ∅ 0
  = Some (Num (ofZ 5)).
Proof.
  destruct (added_material_resolves_to_its_price chainData "Q" (ofZ 5) ∅ 0)
    as (_ & Hpos & _); [done|done|].
  by apply Hpos.
Defined.



(** * Calculator slots and the summary *)










(** * Clipboard text of the slots *)

Section ClipboardFacts.
Context {Char : Type} `{EqDecision Char}.
Variables (space comma : Char) (isWhite : Char → bool).
Variables (sanitizeText sanitizeNumber : list Char → list Char).
Hypothesis space_is_white : isWhite space = true.
Hypothesis comma_not_white : isWhite comma = false.

Lemma space_ne_comma : space ≠ comma.
Proof. intros Heq. rewrite Heq in space_is_white. congruence. Qed.

Lemma headOk_app s t : headOk isWhite s → headOk isWhite (s ++ t).
Proof. by destruct s. Qed.

Lemma trimStart_headOk s : headOk isWhite s → trimStart isWhite s = s.
Proof. destruct s as [|c s]; [done|]. simpl. by intros ->. Qed.

Lemma trimStart_suffix s : ∃ w, s = w ++ trimStart isWhite s.
Proof.
  induction s as [|c s [w IH]]; [by exists []|]. simpl.
  destruct (isWhite c); [|by exists []].
  exists (c :: w). simpl. by rewrite <- IH.
Qed.

Lemma trimStart_result s : trimStart isWhite s = [] ∨ headOk isWhite (trimStart isWhite s).
Proof.
  induction s as [|c s IH]; [by left|]. simpl.
  destruct (isWhite c) eqn:Hc; [done|]. right. done.
Qed.

Lemma trim_tight s : tight isWhite s → trim isWhite s = s.
Proof.
  intros [Hhead Hlast]. unfold trim, trimEnd.
  rewrite (trimStart_headOk s) by done.
  rewrite (trimStart_headOk (reverse s)) by done.
  apply reverse_involutive.
Qed.

Lemma tight_trim s : trim isWhite s ≠ [] → tight isWhite (trim isWhite s).
Proof.
  unfold trim, trimEnd. intros Hne.
  set (u := trimStart isWhite s) in *. set (v := trimStart isWhite (reverse u)) in *.
  assert (v ≠ []) as Hv by (intros Hv; by rewrite Hv in Hne).
  assert (headOk isWhite v) as Hhv by (by destruct (trimStart_result (reverse u))).
  split; [|by rewrite reverse_involutive].
  destruct (trimStart_suffix (reverse u)) as [w Hw]. fold v in Hw.
  assert (u = reverse v ++ reverse w) as Hu.
  { rewrite <- reverse_app, <- Hw. by rewrite reverse_involutive. }
  assert (headOk isWhite u) as Hhu.
  { destruct (trimStart_result s) as [Hu0|?]; [|done].
    fold u in Hu0. rewrite Hu0 in Hw. simpl in Hw.
    by destruct w, v. }
  rewrite Hu in Hhu. destruct (reverse v) eqn:Hrv; [|done].
  apply (f_equal reverse) in Hrv. rewrite reverse_involutive in Hrv.
  by rewrite Hrv in Hv.
Qed.

Lemma tight_nonempty s : tight isWhite s → s ≠ [].
Proof. intros [Hh _] ->. done. Qed.

Lemma tight_entry n r : tight isWhite n → tight isWhite r → tight isWhite (n ++ space :: r).
Proof.
  intros [Hn _] [_ Hr]. split; [by apply headOk_app|].
  rewrite reverse_app, reverse_cons. rewrite <- app_assoc.
  by apply headOk_app.
Qed.

Lemma trim_leading_space s : tight isWhite s → trim isWhite (space :: s) = s.
Proof.
  intros Hs. unfold trim. simpl. rewrite space_is_white.
  by apply trim_tight.
Qed.

Lemma lastIndexOf_entry n r :
  space ∉ r → lastIndexOf space (n ++ space :: r) = Some (length n).
Proof.
  intros Hr.
  assert (lastIndexOf space r = None) as Hnone.
  { induction r as [|c r IH]; [done|]. simpl.
    rewrite IH by (intros ?; apply Hr; by right).
    rewrite decide_False; [done|]. intros ->. apply Hr. by left. }
  induction n as [|c n IH]; simpl.
  - rewrite Hnone. by rewrite decide_True.
  - by rewrite IH.
Qed.

Lemma split_no_comma p : comma ∉ p → split comma p = [p].
Proof.
  induction p as [|c p IH]; intros Hp; [done|]. simpl.
  rewrite decide_False by (intros ->; apply Hp; by left).
  rewrite IH; [done|]. intros ?. apply Hp. by right.
Qed.

Lemma split_app_comma p s :
  comma ∉ p → split comma (p ++ comma :: s) = p :: split comma s.
Proof.
  induction p as [|c p IH]; intros Hp; simpl.
  - by rewrite decide_True.
  - rewrite decide_False by (intros ->; apply Hp; by left).
    rewrite IH; [done|]. intros ?. apply Hp. by right.
Qed.

Lemma split_cons_other c s :
  c ≠ comma →
  split comma (c :: s)
  = match split comma s with
    | part :: parts => (c :: part) :: parts
    | [] => [[c]]
    end.
Proof. intros Hc. simpl. by rewrite decide_False. Qed.

Lemma split_join e es :
  Forall (λ p, comma ∉ p) (e :: es) →
  split comma (join [comma; space] (e :: es)) = e :: ((space ::.) <$> es).
Proof.
  revert e. induction es as [|e' es IH]; intros e Hall.
  - simpl. apply split_no_comma. by apply Forall_cons in Hall as [? _].
  - apply Forall_cons in Hall as [He Hall].
    change (join [comma; space] (e :: e' :: es))
      with (e ++ comma :: space :: join [comma; space] (e' :: es)).
    rewrite split_app_comma by done. f_equal.
    rewrite split_cons_other by apply space_ne_comma.
    by rewrite (IH e' Hall).
Qed.

Lemma join_tight e es :
  Forall (tight isWhite) (e :: es) → tight isWhite (join [comma; space] (e :: es)).
Proof.
  revert e. induction es as [|e' es IH]; intros e Hall.
  - by apply Forall_cons in Hall as [? _].
  - apply Forall_cons in Hall as [[He _] Hall].
    change (join [comma; space] (e :: e' :: es))
      with (e ++ [comma; space] ++ join [comma; space] (e' :: es)).
    destruct (IH e' Hall) as [_ Hlast].
    split; [by apply headOk_app|].
    rewrite !reverse_app. by do 2 apply headOk_app.
Qed.

Lemma slotEntry_values slot :
  slotEntry space isWhite slot = entryText space <$> slotValues isWhite slot.
Proof.
  unfold slotEntry, slotValues.
  by destruct (bool_decide _ && bool_decide _).
Qed.

Lemma textarea_entries slots :
  updateClipboardTextarea space comma isWhite slots
  = join [comma; space] (entryText space <$> filledSlots isWhite slots).
Proof.
  unfold updateClipboardTextarea, filledSlots. f_equal.
  induction (take 8 slots) as [|slot l IH]; [done|].
  csimpl. rewrite slotEntry_values.
  destruct (slotValues isWhite slot); csimpl; by rewrite IH.
Qed.

Lemma slotValues_tight slot e :
  slotValues isWhite slot = Some e → tight isWhite e.1 ∧ tight isWhite e.2.
Proof.
  unfold slotValues.
  destruct (bool_decide (trim isWhite slot.1 ≠ [])) eqn:Hn; [|done].
  destruct (bool_decide (trim isWhite slot.2 ≠ [])) eqn:Hr; [|done].
  simpl. intros [= <-]. simpl.
  apply bool_decide_eq_true in Hn, Hr. split; by apply tight_trim.
Qed.

Lemma filledSlots_tight slots :
  Forall (λ e, tight isWhite e.1 ∧ tight isWhite e.2) (filledSlots isWhite slots).
Proof.
  unfold filledSlots. induction (take 8 slots) as [|slot l IH]; [by apply Forall_nil|].
  simpl. destruct (slotValues isWhite slot) as [e|] eqn:He; [|done].
  apply Forall_cons. split; [|done]. by apply slotValues_tight with slot.
Qed.

Lemma importPart_entry page index n r :
  (index < 8)%nat → tight isWhite n → tight isWhite r → space ∉ r →
  importPart space isWhite sanitizeText sanitizeNumber page
    (index, n ++ space :: r)
  = <[index := (sanitizeText n, sanitizeNumber r)]> page.
Proof.
  intros Hi Hn Hr Hsp. unfold importPart.
  rewrite bool_decide_true by done.
  rewrite lastIndexOf_entry by done.
  assert (0 < length n)%nat as Hlen.
  { apply tight_nonempty in Hn. destruct n; [done|]. simpl. lia. }
  rewrite bool_decide_true by done.
  rewrite take_app_length.
  rewrite (cons_middle space n r), app_assoc.
  rewrite (drop_app_length' (n ++ [space]) r (S (length n))).
  - by rewrite !trim_tight.
  - rewrite length_app. simpl. lia.
Qed.

Lemma import_fold written entries m :
  Forall (λ e, tight isWhite (fst e) ∧ tight isWhite (snd e) ∧
               (space ∉ snd e) ∧
               sanitizeText (fst e) = fst e ∧ sanitizeNumber (snd e) = snd e)
    entries →
  (length written + length entries ≤ 8)%nat →
  (length entries ≤ m)%nat →
  foldl (importPart space isWhite sanitizeText sanitizeNumber)
    (written ++ replicate m ([], []))
    (imap (λ i p, ((length written + i)%nat, p)) (entryText space <$> entries))
  = written ++ entries ++ replicate (m - length entries) ([], []).
Proof.
  revert written m. induction entries as [|[n r] es IH]; intros written m.
  - intros _ _ _. simpl. by rewrite Nat.sub_0_r.
  - intros Hall Hlen Hm. apply Forall_cons in Hall as [(Hn & Hr & Hsp & Hsn & Hsr) Hall].
    simpl in Hn, Hr, Hsp, Hsn, Hsr, Hlen, Hm.
    destruct m as [|m]; [lia|].
    rewrite fmap_cons, imap_cons. cbn [foldl]. rewrite Nat.add_0_r.
    unfold entryText at 1. cbn [fst snd].
    rewrite importPart_entry; [|lia|done..].
    rewrite Hsn, Hsr.
    rewrite insert_app_r_alt by lia. rewrite Nat.sub_diag. cbn [replicate].
    change (<[0%nat:=(n, r)]> (([], []) :: replicate m ([], [])))
      with ((n, r) :: replicate m (@nil Char, @nil Char)).
    rewrite (cons_middle (n, r) written), app_assoc.
    rewrite (imap_ext _ (λ i p, ((length (written ++ [(n, r)]) + i)%nat, p))).
    + rewrite IH; [|done|rewrite length_app; simpl; lia|lia].
      rewrite <- app_assoc. simpl. done.
    + intros i p _. simpl. rewrite length_app. simpl. f_equal. lia.
Qed.

Lemma portable_text e :
  portable space comma sanitizeText sanitizeNumber e →
  comma ∉ entryText space e.
Proof.
  intros (Hn & Hr & _). unfold entryText.
  rewrite elem_of_app, elem_of_cons. intros [?|[Heq|?]]; [done| |done].
  by apply space_ne_comma.
Qed.

(** X22. Importing the text [updateClipboardTextarea] wrote gives back
    the filled slots, trimmed, in order from slot 1, followed by empty
    slots; names may contain spaces.  This needs names and rewards
    without commas, rewards without spaces, and values the inputs keep
    as they are; with no filled slot the text is empty and the import
    changes nothing. *)
Theorem clipboard_round_trip slots page :
  Forall (portable space comma sanitizeText sanitizeNumber)
    (filledSlots isWhite slots) →
  (length (filledSlots isWhite slots) ≤ length page ≤ 8)%nat →
  importClipboard space comma isWhite sanitizeText sanitizeNumber
    (updateClipboardTextarea space comma isWhite slots) page
  = if bool_decide (filledSlots isWhite slots = []) then page
    else filledSlots isWhite slots
         ++ replicate (length page - length (filledSlots isWhite slots))
              ([], []).
Proof.
  intros Hport [Hlen Hpage]. rewrite textarea_entries.
  pose proof (filledSlots_tight slots) as Htight.
  destruct (filledSlots isWhite slots) as [|e es] eqn:Hentries; [done|].
  rewrite bool_decide_false by done.
  rewrite fmap_cons.
  assert (Forall (tight isWhite)
            (entryText space e :: (entryText space <$> es))) as Htexts.
  { rewrite <- fmap_cons. apply Forall_fmap.
    eapply Forall_impl; [exact Htight|].
    intros ? [? ?]. by apply tight_entry. }
  assert (Forall (λ p, comma ∉ p)
            (entryText space e :: (entryText space <$> es))) as Hcommas.
  { rewrite <- fmap_cons. apply Forall_fmap.
    eapply Forall_impl; [exact Hport|].
    intros ?. apply portable_text. }
  unfold importClipboard.
  rewrite (trim_tight _ (join_tight _ _ Htexts)).
  rewrite bool_decide_false
    by (apply tight_nonempty; by apply join_tight).
  rewrite split_join by done.
  rewrite fmap_cons. apply Forall_cons in Htexts as [He Hes].
  rewrite (trim_tight _ He). rewrite <- list_fmap_compose.
  rewrite (Forall_fmap_ext_1 (trim isWhite ∘ (space ::.)) id (entryText space <$> es)).
  2:{ eapply Forall_impl; [exact Hes|]. intros p Hp. simpl. by apply trim_leading_space. }
  rewrite list_fmap_id.
  rewrite (take_ge page) by done. rewrite (drop_ge page) by done.
  rewrite app_nil_r.
  replace ((λ _ : list Char * list Char, (@nil Char, @nil Char)) <$> page)
    with (replicate (length page) (@nil Char, @nil Char)).
  2:{ clear. induction page; simpl; [done|]. by f_equal. }
  pose proof (import_fold [] (e :: es) (length page)) as Hfold.
  rewrite fmap_cons in Hfold.
  cbn [app length Nat.add] in Hfold. apply Hfold; [|simpl in *; lia|done].
  apply Forall_forall. intros x Hx.
  rewrite Forall_forall in Htight, Hport.
  destruct (Htight x Hx) as [? ?]. destruct (Hport x Hx) as (_ & _ & ? & ? & ?).
  done.
Qed.
End ClipboardFacts.

Lemma clipboard_round_trip_witness :
  updateClipboardTextarea " "%char ","%char asciiWhite pageSlots
  = units "iron bar 120, rope 35" ∧
  importClipboard " "%char ","%char asciiWhite id id
    (updateClipboardTextarea " "%char ","%char asciiWhite pageSlots)
    (replicate 8 ([], []))
  = [(units "iron bar", units "120"); (units "rope", units "35")]
    ++ replicate 6 ([], []).
Proof.
  split; [by vm_compute|].
  assert (filledSlots asciiWhite pageSlots
          = [(units "iron bar", units "120"); (units "rope", units "35")])
    as Hfilled by (by vm_compute).
  rewrite (clipboard_round_trip " "%char ","%char asciiWhite id id
             eq_refl eq_refl pageSlots (replicate 8 ([], []))).
  - by rewrite Hfilled.
  - rewrite Hfilled.
    repeat (apply Forall_cons; split; [|]); try by apply Forall_nil.
    all: unfold portable; simpl; repeat split;
      apply (bool_decide_unpack _); by vm_compute.
  - rewrite Hfilled. simpl. lia.
Defined.
